(** * ros2action echo: the output queue, the stream callbacks and the printer

    A shallow embedding of [ros2action/verb/echo.py].  The verb subscribes to
    up to five streams of an action, renders every message to text inside the
    subscription callback, hands the text to a bounded [queue.Queue], and a
    printer thread writes the queued texts to standard output.

    Layout: Python values and strings, the [queue.Queue] operations the verb
    calls, the [EchoVerb] object and its callbacks, the printer thread as a
    small-step machine, [main] as start-up and shut-down functions with an
    effect log, and then the theorems. *)

From Stdlib Require Import ZArith Ascii String List Lia Bool.
From stdpp Require Import base option list strings gmap pretty.

Local Open Scope string_scope.
Local Open Scope Z_scope.

(** ** Characters and strings *)

Module Str.

(** The double quote and the line feed, written by their codes. *)
Definition dquote : string := String "034"%char EmptyString.
Definition nl : string := String "010"%char EmptyString.

(** [str.lower] on the ASCII range, which is all the enum values use. *)
Definition lower_ascii (c : ascii) : ascii :=
  let n := nat_of_ascii c in
  if ((65 <=? n)%nat && (n <=? 90)%nat)%bool then ascii_of_nat (n + 32) else c.

Fixpoint lower (s : string) : string :=
  match s with
  | EmptyString => EmptyString
  | String c rest => String (lower_ascii c) (lower rest)
  end.

(** [sub in s] for two strings: substring test. *)
Fixpoint contains (sub s : string) : bool :=
  String.prefix sub s ||
  match s with
  | EmptyString => false
  | String _ rest => contains sub rest
  end.

(** [x in l] for a list of strings. *)
Definition mem (x : string) (l : list string) : bool :=
  existsb (String.eqb x) l.

Definition starts_with (p s : string) : Prop := exists rest, s = p +:+ rest.
Definition ends_with (p s : string) : Prop := exists front, s = front +:+ p.

End Str.

(** ** The enumeration of the five streams *)

Inductive ActionInterfaces :=
| GOAL_SERVICE
| CANCEL_SERVICE
| RESULT_SERVICE
| FEEDBACK_TOPIC
| STATUS_TOPIC.

#[global] Instance ActionInterfaces_eq_dec : EqDecision ActionInterfaces.
Proof. solve_decision. Defined.

(** [interface.value] *)
Definition value (i : ActionInterfaces) : string :=
  match i with
  | GOAL_SERVICE => "GOAL_SERVICE"
  | CANCEL_SERVICE => "CANCEL_SERVICE"
  | RESULT_SERVICE => "RESULT_SERVICE"
  | FEEDBACK_TOPIC => "FEEDBACK_TOPIC"
  | STATUS_TOPIC => "STATUS_TOPIC"
  end.

(** Iteration order of [for interface in ActionInterfaces]. *)
Definition all_interfaces : list ActionInterfaces :=
  [GOAL_SERVICE; CANCEL_SERVICE; RESULT_SERVICE; FEEDBACK_TOPIC; STATUS_TOPIC].

(** [[interface.value.lower() for interface in ActionInterfaces]] *)
Definition action_interfaces_list : list string :=
  map (fun i => Str.lower (value i)) all_interfaces.

(** ** Exceptions the modelled code can raise *)

Inductive exn :=
| Full
| Empty
| KeyError
| TypeError
| AttributeError
| ModuleNotFoundError
| ValueError
| RuntimeError (msg : string).

(** ** [queue.Queue] of the Python standard library

    Only what the verb calls: the constructor, [put] and [get] with a
    timeout, and [task_done].  A call that blocks is taken at the moment it
    finishes: [put] at the moment it finds room or its timeout has elapsed
    with the queue still full, [get] at the moment it finds an item or its
    timeout has elapsed with the queue still empty.  What other threads do
    while a call waits is the interleaving of the calls themselves. *)

Module Queue.

Record t := mk {
  maxsize : Z;
  items : list string;
  unfinished_tasks : Z
}.

(** [queue.Queue(maxsize)] *)
Definition new (maxsize : Z) : t :=
  {| maxsize := maxsize; items := []; unfinished_tasks := 0 |}.

Definition qsize (q : t) : Z := Z.of_nat (length (items q)).

(** A queue whose [maxsize] is not positive is unbounded. *)
Definition full (q : t) : bool :=
  (0 <? maxsize q) && (maxsize q <=? qsize q).

(** [q.put(item, timeout=...)]: [Full] when the wait ends with no room. *)
Definition put (q : t) (item : string) : exn + t :=
  if full q then inl Full
  else inr {| maxsize := maxsize q;
              items := items q ++ [item];
              unfinished_tasks := unfinished_tasks q + 1 |}.

(** [q.get(block=True, timeout=...)]: [Empty] when the wait ends with no
    item. *)
Definition get (q : t) : exn + (string * t) :=
  match items q with
  | [] => inl Empty
  | item :: rest =>
      inr (item, {| maxsize := maxsize q;
                    items := rest;
                    unfinished_tasks := unfinished_tasks q |})
  end.

(** [q.task_done()] *)
Definition task_done (q : t) : t :=
  {| maxsize := maxsize q;
     items := items q;
     unfinished_tasks := unfinished_tasks q - 1 |}.

End Queue.

(** ** Python values of a rendered message

    [message_to_ordereddict] returns an [OrderedDict] from field names to
    values; a nested message is again an [OrderedDict].  The callback looks
    only at the key ['info'] and, below it, at ['event_type']; the scalar
    leaves kept here are the ones that path can meet (integers, booleans and
    strings), next to lists and nested dictionaries. *)

#[warnings="-register-all"] Inductive pyval :=
| PInt (n : Z)
| PBool (b : bool)
| PStr (s : string)
| PList (l : list pyval)
| PDict (d : list (string * pyval)).

(** An [OrderedDict] with string keys: pairs in insertion order. *)
Abbreviation odict := (list (string * pyval)).

Module Dict.

(** [k in d] *)
Definition has (k : string) (d : odict) : bool :=
  existsb (fun kv => String.eqb (fst kv) k) d.

(** [d[k]], [KeyError] when the key is absent. *)
Fixpoint get (k : string) (d : odict) : exn + pyval :=
  match d with
  | [] => inl KeyError
  | (k', v) :: rest => if String.eqb k' k then inr v else get k rest
  end.

(** [d[k] = v]: an existing key keeps its place, a new key goes last. *)
Fixpoint set (k : string) (v : pyval) (d : odict) : odict :=
  match d with
  | [] => [(k, v)]
  | (k', v') :: rest =>
      if String.eqb k' k then (k', v) :: rest else (k', v') :: set k v rest
  end.

End Dict.

(** The error monad the callbacks run in. *)
Definition bind {A B : Type} (m : exn + A) (k : A -> exn + B) : exn + B :=
  match m with
  | inl e => inl e
  | inr a => k a
  end.

Notation "'let*' x ':=' m 'in' k" := (bind m (fun x => k))
  (at level 10, x name, m at level 100, k at level 200, only parsing).

(** ['event_type' in info], by the type of [info]: key test on a dictionary,
    substring test on a string, element test on a list, [TypeError] on a
    value that is not a container. *)
Definition contains_event_type (info : pyval) : exn + bool :=
  match info with
  | PDict d => inr (Dict.has "event_type" d)
  | PStr s => inr (Str.contains "event_type" s)
  | PList l =>
      inr (existsb (fun v => match v with
                             | PStr s => String.eqb s "event_type"
                             | _ => false
                             end) l)
  | PInt _ | PBool _ => inl TypeError
  end.

(** [info['event_type']]: strings and lists take integer indices only. *)
Definition getitem_event_type (info : pyval) : exn + pyval :=
  match info with
  | PDict d => Dict.get "event_type" d
  | _ => inl TypeError
  end.

(** [info['event_type'] = v] *)
Definition setitem_event_type (info : pyval) (v : pyval) : exn + pyval :=
  match info with
  | PDict d => inr (PDict (Dict.set "event_type" v d))
  | _ => inl TypeError
  end.

(** [table[key]] for a dictionary with integer keys: [True] and [False] hash
    and compare as 1 and 0, a string is an absent key, a list or a
    dictionary is unhashable. *)
Definition getitem_number (table : gmap Z string) (key : pyval) : exn + string :=
  match key with
  | PInt n => match table !! n with Some name => inr name | None => inl KeyError end
  | PBool b => match table !! Z.b2z b with Some name => inr name | None => inl KeyError end
  | PStr _ => inl KeyError
  | PList _ | PDict _ => inl TypeError
  end.

(** ** The verb object *)

(** The attributes of [self] that [__init__] and [main] set. *)
Record EchoVerb := mkEchoVerb {
  _event_number_to_name : gmap Z string;
  csv : bool;
  truncate_length : option Z;
  flow_style : bool;
  no_arr : bool;
  no_str : bool;
  output_msg_queue : Queue.t
}.

Definition set_output_msg_queue (self : EchoVerb) (q : Queue.t) : EchoVerb :=
  {| _event_number_to_name := _event_number_to_name self;
     csv := csv self;
     truncate_length := truncate_length self;
     flow_style := flow_style self;
     no_arr := no_arr self;
     no_str := no_str self;
     output_msg_queue := q |}.

(** The loop of [__init__]: the table of constants, name to number, turned
    into number to name; a later constant with the same number wins. *)
Definition init_event_number_to_name (constants : list (string * Z)) : gmap Z string :=
  fold_left (fun table kv => <[snd kv := fst kv]> table) constants ∅.

(** The warning of the [except queue.Full] branch. *)
Definition queue_full_warning : string :=
  "Output message is full! Please increase the queue size of output message by "
  +:+ Str.dquote +:+ "--queue_size" +:+ Str.dquote.

(** What a call of the callback did.  In Python the first two return [None]
    and the third leaves the callback as an exception. *)
Inductive outcome :=
| Enqueued (record : string)
| Dropped (record : string)
| Propagated (e : exn).

Section Callbacks.

(** The message type and the formatters of [rosidl_runtime_py] and [yaml],
    which the verb calls and does not define. *)
Variable Msg : Type.
Variable message_to_csv : Msg -> option Z -> bool -> bool -> string.
Variable message_to_ordereddict : Msg -> option Z -> bool -> bool -> odict.
(** [yaml.dump(d, allow_unicode=True, width=sys.maxsize,
    default_flow_style=...)] as a function of [d] and the flow style. *)
Variable yaml_dump : odict -> bool -> string.

(** Lines 265 to 268: the event number under ['info'] replaced by its
    name.  [info] is the very dictionary stored in [msgdict], so assigning
    to [info['event_type']] changes [msgdict] at the key ['info']. *)
Definition replace_event_type (self : EchoVerb) (msgdict : odict) : exn + odict :=
  if Dict.has "info" msgdict then
    let* info := Dict.get "info" msgdict in
    let* present := contains_event_type info in
    if (present : bool) then
      let* number := getitem_event_type info in
      let* name := getitem_number (_event_number_to_name self) number in
      let* info' := setitem_event_type info (PStr name) in
      inr (Dict.set "info" info' msgdict)
    else inr msgdict
  else inr msgdict.

(** Lines 253 to 273: the text [to_print] of one message. *)
Definition to_print (self : EchoVerb) (msg : Msg) (interface : string) : exn + string :=
  let header := "interface: " +:+ interface +:+ Str.nl in
  if csv self then
    inr (header +:+ message_to_csv msg (truncate_length self) (no_arr self) (no_str self))
  else
    let* msgdict :=
      replace_event_type self
        (message_to_ordereddict msg (truncate_length self) (no_arr self) (no_str self)) in
    inr (header +:+ yaml_dump msgdict (flow_style self) +:+ "---").

(** [_base_subscriber_callback(self, msg, interface)] on the verb and the
    lines printed so far. *)
Definition _base_subscriber_callback (self : EchoVerb) (stdout : list string)
    (msg : Msg) (interface : string) : outcome * EchoVerb * list string :=
  match to_print self msg interface with
  | inl e => (Propagated e, self, stdout)
  | inr text =>
      match Queue.put (output_msg_queue self) text with
      | inr q => (Enqueued text, set_output_msg_queue self q, stdout)
      | inl Full => (Dropped text, self, (stdout ++ [queue_full_warning])%list)
      | inl e => (Propagated e, self, stdout)
      end
  end.

(** The five callbacks registered with the subscriptions. *)
Definition _send_goal_subscriber_callback self stdout msg :=
  _base_subscriber_callback self stdout msg (value GOAL_SERVICE).
Definition _cancel_goal_subscriber_callback self stdout msg :=
  _base_subscriber_callback self stdout msg (value CANCEL_SERVICE).
Definition _get_result_subscriber_callback self stdout msg :=
  _base_subscriber_callback self stdout msg (value RESULT_SERVICE).
Definition _feedback_subscriber_callback self stdout msg :=
  _base_subscriber_callback self stdout msg (value FEEDBACK_TOPIC).
Definition _status_subscriber_callback self stdout msg :=
  _base_subscriber_callback self stdout msg (value STATUS_TOPIC).

(** The callback [main] passes to [create_subscription] for each stream. *)
Definition callback_of (i : ActionInterfaces) :=
  match i with
  | GOAL_SERVICE => _send_goal_subscriber_callback
  | CANCEL_SERVICE => _cancel_goal_subscriber_callback
  | RESULT_SERVICE => _get_result_subscriber_callback
  | FEEDBACK_TOPIC => _feedback_subscriber_callback
  | STATUS_TOPIC => _status_subscriber_callback
  end.

End Callbacks.

(** ** Command-line arguments *)

Definition DEFAULT_TRUNCATE_LENGTH : Z := 128.

(** The namespace [args] that [main] reads. *)
Module Args.
Record t := mk {
  action_name : string;
  action_type : option string;
  interfaces : list string;
  queue_size : Z;
  csv : bool;
  full_length : bool;
  truncate_length : Z;
  no_arr : bool;
  no_str : bool;
  flow_style : bool
}.
End Args.

(** What the user typed: an option that was not given is [None] (or [false]
    for a [store_true] flag); a numeric option carries the integer its text
    denotes. *)
Module Cli.
Record t := mk {
  action_name : string;
  action_type : option string;
  interfaces : option (list string);
  queue_size : option Z;
  csv : bool;
  full_length : bool;
  truncate_length : option Z;
  no_arr : bool;
  no_str : bool;
  flow_style : bool
}.
End Cli.

(** Modelled from the spec: [ros2cli.helpers.unsigned_int], the [type=] of
    [--queue-size] and [--truncate-length], is imported by the verb and not
    among the sources.  The spec asks for a positive integer for both options
    and makes a non-positive one a configuration error. *)
Definition unsigned_int (n : Z) : option Z :=
  if 0 <? n then Some n else None.

(** Modelled from the spec: the exit status of a configuration error, which
    the spec only says is not zero ([argparse] leaves with status 2). *)
Definition configuration_error_status : Z := 2.

(** The error [argparse] reports for an option whose [type=] conversion
    refuses the value; the parser then leaves the process. *)
Inductive usage_error :=
| InvalidValue (option_name : string) (n : Z).

(** [add_arguments] followed by [parse_args]: the defaults of lines 81 to
    109, and the [type=] conversion applied to an option the user gave. *)
Definition parse_args (cl : Cli.t) : usage_error + Args.t :=
  match
    match Cli.queue_size cl with
    | None => inr 100
    | Some n => from_option inr (inl (InvalidValue "--queue-size" n)) (unsigned_int n)
    end
  with
  | inl err => inl err
  | inr q =>
      match
        match Cli.truncate_length cl with
        | None => inr DEFAULT_TRUNCATE_LENGTH
        | Some n =>
            from_option inr (inl (InvalidValue "--truncate-length" n)) (unsigned_int n)
        end
      with
      | inl err => inl err
      | inr l =>
          inr {| Args.action_name := Cli.action_name cl;
                 Args.action_type := Cli.action_type cl;
                 Args.interfaces := default [] (Cli.interfaces cl);
                 Args.queue_size := q;
                 Args.csv := Cli.csv cl;
                 Args.full_length := Cli.full_length cl;
                 Args.truncate_length := l;
                 Args.no_arr := Cli.no_arr cl;
                 Args.no_str := Cli.no_str cl;
                 Args.flow_style := Cli.flow_style cl |}
      end
  end.

(** ** Subscriptions *)

Inductive QoS :=
| qos_profile_services_default
| qos_profile_action_status_default
| QoSProfile (depth : Z).

Record Subscription := mkSubscription {
  stream : ActionInterfaces;
  topic : string;
  qos : QoS
}.

(** Lines 140 to 153 and the five [create_subscription] calls: topic name and
    quality of service of each stream. *)
Definition subscription_of (action_name : string) (i : ActionInterfaces) : Subscription :=
  match i with
  | GOAL_SERVICE =>
      mkSubscription i (action_name +:+ "/_action/send_goal/_service_event")
        qos_profile_services_default
  | CANCEL_SERVICE =>
      mkSubscription i (action_name +:+ "/_action/cancel_goal/_service_event")
        qos_profile_services_default
  | RESULT_SERVICE =>
      mkSubscription i (action_name +:+ "/_action/get_result/_service_event")
        qos_profile_services_default
  | FEEDBACK_TOPIC =>
      mkSubscription i (action_name +:+ "/_action/feedback") (QoSProfile 10)
  | STATUS_TOPIC =>
      mkSubscription i (action_name +:+ "/_action/status")
        qos_profile_action_status_default
  end.

(** [not args.interfaces or ActionInterfaces.X.value.lower() in args.interfaces] *)
Definition selected (interfaces : list string) (i : ActionInterfaces) : bool :=
  match interfaces with
  | [] => true
  | _ => Str.mem (Str.lower (value i)) interfaces
  end.

(** ** The process: verb, stop flag, printer thread, subscriptions, output *)

(** Where the thread running [message_handler] stands. *)
Inductive handler_pc :=
| NotStarted
| AtWhile
| AtGet
| AtPrint (message : string)
| Finished.

Record Process := mkProcess {
  self : EchoVerb;
  run_thread : bool;
  output_msg_thread : handler_pc;
  subscriptions : list Subscription;
  spinning : bool;
  stdout : list string
}.

Definition is_alive (pc : handler_pc) : bool :=
  match pc with
  | NotStarted | Finished => false
  | _ => true
  end.

(** What [main] does to the world outside the process state, in order. *)
Inductive effect :=
| NodeCreated
| QueueCreated (maxsize : Z)
| ThreadStarted
| SubscriptionCreated (s : Subscription)
| NodeAdded
| NodeRemoved
| SubscriptionDestroyed (s : Subscription)
| StopFlagSet
| ThreadJoined (timeout : Z).

(** ** The printer thread

    One step of [message_handler]: the test of [while run_thread], the
    [get] with [task_done], or the [print].  [run_thread] is a variable of
    [main] that the closure reads, so the thread sees the assignment
    [run_thread = False] at its next test.  The [get] and the [task_done]
    that follows it are taken as one step: the moment between the two calls
    is not observed. *)
Definition message_handler (p : Process) : Process :=
  match output_msg_thread p with
  | NotStarted | Finished => p
  | AtWhile =>
      mkProcess (self p) (run_thread p)
        (if run_thread p then AtGet else Finished)
        (subscriptions p) (spinning p) (stdout p)
  | AtGet =>
      match Queue.get (output_msg_queue (self p)) with
      | inr (message, q) =>
          mkProcess (set_output_msg_queue (self p) (Queue.task_done q)) (run_thread p)
            (AtPrint message) (subscriptions p) (spinning p) (stdout p)
      | inl _ =>
          mkProcess (self p) (run_thread p) AtWhile
            (subscriptions p) (spinning p) (stdout p)
      end
  | AtPrint message =>
      mkProcess (self p) (run_thread p) AtWhile
        (subscriptions p) (spinning p) (stdout p ++ [message])
  end.

(** ** [main] and the running process *)

(** How [main] ends before it reaches its event loop. *)
Inductive main_exit :=
| Returned (message : string)
| Raised (e : exn).

(** What the environment makes happen while the process runs: the executor
    delivers a message of stream [i] inside [spin_once], the printer thread
    takes a step, or the event loop ends (a [KeyboardInterrupt], or the
    context is no longer ok). *)
Inductive event (Msg : Type) :=
| Deliver (i : ActionInterfaces) (msg : Msg)
| Handler
| Interrupt.
Arguments Deliver {Msg} i msg.
Arguments Handler {Msg}.
Arguments Interrupt {Msg}.

(** What one event did. *)
Inductive obs :=
| Called (i : ActionInterfaces) (o : outcome)
| Ignored
| Tested (flag : bool)
| Popped (record : string)
| TimedOut
| Printed (record : string)
| Idle
| ShutDown (log : list effect).

(** Lines 112 to 116: the first requested name that is not one of the five. *)
Definition check_interfaces (interfaces : list string) : option string :=
  find (fun input_interface => negb (Str.mem input_interface action_interfaces_list))
       interfaces.

Definition incorrect_interface_message (input_interface : string) : string :=
  Str.dquote +:+ input_interface +:+ Str.dquote +:+ " is incorrect interface name.".

Section Program.

Variable Msg : Type.
Variable message_to_csv : Msg -> option Z -> bool -> bool -> string.
Variable message_to_ordereddict : Msg -> option Z -> bool -> bool -> odict.
Variable yaml_dump : odict -> bool -> string.

(** [ServiceEventInfo._Metaclass_ServiceEventInfo__constants] of
    [service_msgs], and the two type look-ups of [ros2action.api] and
    [rosidl_runtime_py]; a look-up raises, returns [None], or returns the
    action's module. *)
Variable constants : list (string * Z).
Variable ActionModule : Type.
Variable get_action_class : string -> exn + option ActionModule.
Variable get_action : string -> exn + option ActionModule.

(** [except (AttributeError, ModuleNotFoundError, ValueError)] *)
Definition caught (e : exn) : bool :=
  match e with
  | AttributeError | ModuleNotFoundError | ValueError => true
  | _ => false
  end.

(** Lines 118 to 132. The first branch opens a node for the look-up. *)
Definition load_action_module (args : Args.t) : list effect * (exn + ActionModule) :=
  let '(log, found) :=
    match Args.action_type args with
    | None =>
        ([NodeCreated],
         match get_action_class (Args.action_name args) with
         | inl e =>
             if caught e
             then inl (RuntimeError
                         ("The action name '" +:+ Args.action_name args +:+ "' is invalid"))
             else inl e
         | inr m => inr m
         end)
    | Some action_type =>
        ([],
         match get_action action_type with
         | inl e =>
             if caught e
             then inl (RuntimeError
                         ("The service type '" +:+ action_type +:+ "' is invalid"))
             else inl e
         | inr m => inr m
         end)
    end in
  (log,
   let* action_module := found in
   match action_module with
   | None => inl (RuntimeError "Could not load the type for the passed action")
   | Some m => inr m
   end).

(** Lines 112 to 214: [main] up to its event loop.  The log lists what was
    created, in order; the process is the state the loop starts in. *)
Definition main_start (args : Args.t) : list effect * (main_exit + Process) :=
  match check_interfaces (Args.interfaces args) with
  | Some input_interface => ([], inl (Returned (incorrect_interface_message input_interface)))
  | None =>
      match load_action_module args with
      | (log, inl e) => (log, inl (Raised e))
      | (log, inr _) =>
          let verb :=
            {| _event_number_to_name := init_event_number_to_name constants;
               csv := Args.csv args;
               truncate_length :=
                 if Args.full_length args then None else Some (Args.truncate_length args);
               flow_style := Args.flow_style args;
               no_arr := Args.no_arr args;
               no_str := Args.no_str args;
               output_msg_queue := Queue.new (Args.queue_size args) |} in
          let subs :=
            map (subscription_of (Args.action_name args))
                (filter (fun i => selected (Args.interfaces args) i = true) all_interfaces) in
          ((log ++ [QueueCreated (Args.queue_size args); ThreadStarted; NodeCreated]
                ++ map SubscriptionCreated subs ++ [NodeAdded])%list,
           inr (mkProcess verb true AtWhile subs true []))
      end
  end.

(** Lines 219 to 235: what [main] does once its loop has ended. *)
Definition main_finish (p : Process) : list effect * Process :=
  (([NodeRemoved] ++ map SubscriptionDestroyed (subscriptions p) ++ [StopFlagSet]
      ++ (if is_alive (output_msg_thread p) then [ThreadJoined 1] else []))%list,
   mkProcess (self p) false (output_msg_thread p) [] false (stdout p)).

(** Whether stream [i] has a subscription. *)
Definition subscribed (p : Process) (i : ActionInterfaces) : bool :=
  existsb (fun s => bool_decide (stream s = i)) (subscriptions p).

(** What the printer thread is about to do. *)
Definition handler_obs (p : Process) : obs :=
  match output_msg_thread p with
  | NotStarted | Finished => Idle
  | AtWhile => Tested (run_thread p)
  | AtGet =>
      match Queue.get (output_msg_queue (self p)) with
      | inr (message, _) => Popped message
      | inl _ => TimedOut
      end
  | AtPrint message => Printed message
  end.

(** One event.  A callback runs only inside [spin_once], that is while
    [main] is in its loop, and only for a stream with a subscription.  An
    exception a callback lets through ends the loop and [main]. *)
Definition step (p : Process) (e : event Msg) : obs * Process :=
  match e with
  | Deliver i msg =>
      if spinning p && subscribed p i then
        let '(o, verb, out) :=
          callback_of Msg message_to_csv message_to_ordereddict yaml_dump i
                      (self p) (stdout p) msg in
        (Called i o,
         mkProcess verb (run_thread p) (output_msg_thread p) (subscriptions p)
           (match o with Propagated _ => false | _ => spinning p end) out)
      else (Ignored, p)
  | Handler => (handler_obs p, message_handler p)
  | Interrupt =>
      if spinning p then
        let '(log, p') := main_finish p in (ShutDown log, p')
      else (Ignored, p)
  end.

(** A schedule of events, with what each did. *)
Fixpoint run (p : Process) (events : list (event Msg)) : list obs * Process :=
  match events with
  | [] => ([], p)
  | e :: rest =>
      let '(o, p1) := step p e in
      let '(os, p2) := run p1 rest in
      (o :: os, p2)
  end.

End Program.

(** The records successfully put, got and printed, in order. *)
Definition pushed (os : list obs) : list string :=
  omap (fun o => match o with Called _ (Enqueued r) => Some r | _ => None end) os.

Definition dropped (os : list obs) : list string :=
  omap (fun o => match o with Called _ (Dropped r) => Some r | _ => None end) os.

Definition popped (os : list obs) : list string :=
  omap (fun o => match o with Popped r => Some r | _ => None end) os.

Definition printed (os : list obs) : list string :=
  omap (fun o => match o with Printed r => Some r | _ => None end) os.

(** [n] calls of [get] in a row, stopping at the first [Empty]. *)
Fixpoint pops (n : nat) (q : Queue.t) : list string * Queue.t :=
  match n with
  | O => ([], q)
  | S n' =>
      match Queue.get q with
      | inl _ => ([], q)
      | inr (r, q') => let '(rs, q'') := pops n' (Queue.task_done q') in (r :: rs, q'')
      end
  end.

(** The whole command: parse, then [main] up to its loop. *)
Inductive command_result :=
| Rejected (err : usage_error) (status : Z)
| Exited (e : main_exit)
| Started (p : Process).

Definition command (constants : list (string * Z)) (ActionModule : Type)
    (get_action_class get_action : string -> exn + option ActionModule)
    (cl : Cli.t) : list effect * command_result :=
  match parse_args cl with
  | inl err => ([], Rejected err configuration_error_status)
  | inr args =>
      let '(log, r) := main_start constants ActionModule get_action_class get_action args in
      (log, match r with inl e => Exited e | inr p => Started p end)
  end.

(** ** A concrete instance to run the definitions on

    Messages are given by their rendered dictionary; the two formatters are
    small stand-ins for [message_to_csv] and [yaml.dump]; the constants are
    those of [service_msgs/msg/ServiceEventInfo]. *)
Module Demo.

Definition Msg : Type := odict.

Definition show_scalar (v : pyval) : string :=
  match v with
  | PInt n => pretty n
  | PBool true => "true"
  | PBool false => "false"
  | PStr s => s
  | PList _ => "[...]"
  | PDict _ => "{...}"
  end.

Definition message_to_csv (msg : Msg) (_ : option Z) (_ _ : bool) : string :=
  match Dict.get "info" msg with
  | inr (PDict info) =>
      String.concat "," (map (fun kv => show_scalar (snd kv)) info)
  | _ => String.concat "," (map (fun kv => show_scalar (snd kv)) msg)
  end.

Definition message_to_ordereddict (msg : Msg) (_ : option Z) (_ _ : bool) : odict := msg.

Definition yaml_dump (d : odict) (_ : bool) : string :=
  String.concat ""
    (map (fun kv =>
            match snd kv with
            | PDict inner =>
                fst kv +:+ ":" +:+ Str.nl +:+
                String.concat ""
                  (map (fun kv' => "  " +:+ fst kv' +:+ ": " +:+ show_scalar (snd kv') +:+ Str.nl)
                       inner)
            | v => fst kv +:+ ": " +:+ show_scalar v +:+ Str.nl
            end) d).

Definition constants : list (string * Z) :=
  [("REQUEST_SENT", 0); ("REQUEST_RECEIVED", 1);
   ("RESPONSE_SENT", 2); ("RESPONSE_RECEIVED", 3)].

Definition ActionModule : Type := unit.
Definition get_action_class (_ : string) : exn + option ActionModule := inr (Some tt).
Definition get_action (_ : string) : exn + option ActionModule := inr (Some tt).

(** [ros2 action echo /fibonacci ... --queue-size n] with the given
    interfaces and output mode. *)
Definition args (interfaces : list string) (queue_size : Z) (csv : bool) : Args.t :=
  {| Args.action_name := "/fibonacci";
     Args.action_type := Some "example_interfaces/action/Fibonacci";
     Args.interfaces := interfaces;
     Args.queue_size := queue_size;
     Args.csv := csv;
     Args.full_length := false;
     Args.truncate_length := DEFAULT_TRUNCATE_LENGTH;
     Args.no_arr := false;
     Args.no_str := false;
     Args.flow_style := false |}.

Definition cli (queue_size truncate_length : option Z) : Cli.t :=
  {| Cli.action_name := "/fibonacci";
     Cli.action_type := Some "example_interfaces/action/Fibonacci";
     Cli.interfaces := None;
     Cli.queue_size := queue_size;
     Cli.csv := false;
     Cli.full_length := false;
     Cli.truncate_length := truncate_length;
     Cli.no_arr := false;
     Cli.no_str := false;
     Cli.flow_style := false |}.

(** A service event with event type [n] and sequence number [k]. *)
Definition service_event (n k : Z) : Msg :=
  [("info", PDict [("event_type", PInt n); ("sequence_number", PInt k)]);
   ("request", PList []);
   ("response", PList [])].

(** A status message, which has no ['info']. *)
Definition status_message (k : Z) : Msg :=
  [("status_list", PList [PInt k])].

Definition main_start := main_start constants ActionModule get_action_class get_action.
Definition step := step Msg message_to_csv message_to_ordereddict yaml_dump.
Definition run := run Msg message_to_csv message_to_ordereddict yaml_dump.
Definition to_print := to_print Msg message_to_csv message_to_ordereddict yaml_dump.
Definition command := command constants ActionModule get_action_class get_action.

(** The process [main] starts with the given arguments (a process with no
    subscription and no loop when [main] ends early). *)
Definition started (a : Args.t) : Process :=
  match snd (main_start a) with
  | inr p => p
  | inl _ =>
      mkProcess (mkEchoVerb ∅ false None false false false (Queue.new 0))
                false NotStarted [] false []
  end.

End Demo.


(** ** Auxiliary definitions for the statements *)

(** The five names [--interfaces] accepts, spelled out. *)
Definition lowercase_names : list string :=
  ["goal_service"; "cancel_service"; "result_service"; "feedback_topic"; "status_topic"].

(** The queue of a process and its content. *)
Definition queue_of (p : Process) : Queue.t := output_msg_queue (self p).
Definition items_of (p : Process) : list string := Queue.items (queue_of p).

(** The record the printer has taken from the queue and not yet printed. *)
Definition in_flight (p : Process) : list string :=
  match output_msg_thread p with
  | AtPrint message => [message]
  | _ => []
  end.

(** How many more records the printer thread can get once the stop flag is
    set: one when it is inside its [get], none otherwise. *)
Definition gets_left (p : Process) : nat :=
  match output_msg_thread p with
  | AtGet => 1
  | _ => 0
  end.

(** The delivery of message [d.2] on stream [d.1]. *)
Definition deliver {Msg : Type} (d : ActionInterfaces * Msg) : event Msg :=
  Deliver (fst d) (snd d).

(** The lines an observation stands for on standard output: the warning of
    a dropped record, or the record the printer printed. *)
Definition lines_of (os : list obs) : list string :=
  flat_map (fun o => match o with
                     | Called _ (Dropped _) => [queue_full_warning]
                     | Printed r => [r]
                     | _ => []
                     end) os.

(** The streams whose callback ran, in order. *)
Definition stream_events (os : list obs) : list ActionInterfaces :=
  omap (fun o => match o with Called i _ => Some i | _ => None end) os.

(** * Properties *)

(** ** Names of the streams *)

Lemma action_interfaces_list_eq : action_interfaces_list = lowercase_names.
Proof. reflexivity. Qed.

Lemma mem_true (x : string) (l : list string) : Str.mem x l = true <-> x ∈ l.
Proof.
  unfold Str.mem. rewrite existsb_exists. split.
  - intros (y & Hy & Heq). apply String.eqb_eq in Heq. subst y.
    by apply list_elem_of_In.
  - intros Hx. exists x. split; [by apply list_elem_of_In | apply String.eqb_refl].
Qed.

Lemma mem_false (x : string) (l : list string) : Str.mem x l = false <-> x ∉ l.
Proof.
  rewrite <- mem_true. destruct (Str.mem x l); split; congruence.
Qed.

Lemma find_first {A : Type} (f : A -> bool) (pre post : list A) (x : A) :
  Forall (fun y => f y = false) pre -> f x = true ->
  find f (pre ++ x :: post) = Some x.
Proof.
  intros Hpre Hx. induction Hpre as [|y pre Hy _ IH]; simpl.
  - by rewrite Hx.
  - by rewrite Hy.
Qed.

Lemma check_interfaces_none (names : list string) :
  check_interfaces names = None <-> Forall (fun n => n ∈ lowercase_names) names.
Proof.
  unfold check_interfaces. rewrite action_interfaces_list_eq.
  induction names as [|n names IH].
  - split; [constructor | done].
  - cbn [find]. destruct (Str.mem n lowercase_names) eqn:Hn; cbn [negb].
    + rewrite IH. apply mem_true in Hn. split.
      * by constructor.
      * by inversion 1.
    + apply mem_false in Hn. split; [done |]. inversion 1; subst. contradiction.
Qed.

Lemma check_interfaces_first (pre post : list string) (name : string) :
  Forall (fun n => n ∈ lowercase_names) pre ->
  name ∉ lowercase_names ->
  check_interfaces (pre ++ name :: post) = Some name.
Proof.
  intros Hpre Hname. unfold check_interfaces. rewrite action_interfaces_list_eq.
  apply find_first.
  - eapply Forall_impl; [exact Hpre |]. intros n Hn. cbv beta in *.
    apply mem_true in Hn. by rewrite Hn.
  - apply mem_false in Hname. by rewrite Hname.
Qed.

Lemma check_interfaces_some (names : list string) (bad : string) :
  check_interfaces names = Some bad ->
  bad ∈ names /\ bad ∉ action_interfaces_list.
Proof.
  unfold check_interfaces. intros H. apply find_some in H as [Hin Hbad].
  split; [by apply list_elem_of_In |].
  apply mem_false. by destruct (Str.mem bad action_interfaces_list).
Qed.

Lemma main_start_rejects (constants : list (string * Z)) (ActionModule : Type)
    (get_action_class get_action : string -> exn + option ActionModule)
    (args : Args.t) (bad : string) :
  check_interfaces (Args.interfaces args) = Some bad ->
  main_start constants ActionModule get_action_class get_action args
  = ([], inl (Returned (incorrect_interface_message bad))).
Proof. intros H. unfold main_start. by rewrite H. Qed.

(** C9: a name given to [--interfaces] is compared, character for character,
    with the five lower-case names: names from the five pass the check, and
    the first name that is not literally one of them, such as an upper-case
    or mixed-case spelling, makes [main] return the message that this name is
    an incorrect interface name. *)
Theorem interface_names_case_sensitive (constants : list (string * Z))
    (ActionModule : Type)
    (get_action_class get_action : string -> exn + option ActionModule)
    (args : Args.t) (pre post : list string) (name : string) :
  Args.interfaces args = (pre ++ name :: post)%list ->
  Forall (fun n => n ∈ ["goal_service"; "cancel_service"; "result_service";
                         "feedback_topic"; "status_topic"]) pre ->
  name ∉ ["goal_service"; "cancel_service"; "result_service";
          "feedback_topic"; "status_topic"] ->
  check_interfaces pre = None /\
  main_start constants ActionModule get_action_class get_action args
  = ([], inl (Returned (Str.dquote +:+ name +:+ Str.dquote
                        +:+ " is incorrect interface name."))).
Proof.
  intros Hargs Hpre Hname. split.
  - by apply check_interfaces_none.
  - apply main_start_rejects. rewrite Hargs. by apply check_interfaces_first.
Qed.

Lemma interface_names_case_sensitive_upper :
  Demo.main_start (Demo.args ["goal_service"; "GOAL_SERVICE"] 100 false)
  = ([], inl (Returned (Str.dquote +:+ "GOAL_SERVICE" +:+ Str.dquote
                        +:+ " is incorrect interface name."))).
Proof.
  refine (proj2 (interface_names_case_sensitive
                   Demo.constants Demo.ActionModule Demo.get_action_class Demo.get_action
                   (Demo.args ["goal_service"; "GOAL_SERVICE"] 100 false)
                   ["goal_service"] [] "GOAL_SERVICE" _ _ _)).
  - reflexivity.
  - repeat constructor.
  - apply mem_false. reflexivity.
Defined.

Example mixed_case_name_rejected :
  check_interfaces ["Goal_Service"] = Some "Goal_Service".
Proof. reflexivity. Qed.

Lemma find_split {A : Type} (f : A -> bool) (l : list A) (x : A) :
  find f l = Some x ->
  exists pre post,
    l = (pre ++ x :: post)%list /\ Forall (fun y => f y = false) pre /\ f x = true.
Proof.
  induction l as [|y l IH]; cbn [find]; [done |].
  destruct (f y) eqn:Hy.
  - intros H. inversion H; subst. by exists [], l.
  - intros H. destruct (IH H) as (pre & post & -> & Hpre & Hx).
    exists (y :: pre), post. split; [done |]. split; [by constructor | done].
Qed.

(** C5: when some requested name is not in the list of the five accepted
    names, [main] returns at the first such name of the request: what it
    returns is that name between double quotes followed by
    [ is incorrect interface name.], and its effect log is empty: no node, no
    queue, no thread and no subscription has been created. *)
Theorem invalid_interface_before_any_effect (constants : list (string * Z))
    (ActionModule : Type)
    (get_action_class get_action : string -> exn + option ActionModule)
    (args : Args.t) (name : string) :
  name ∈ Args.interfaces args ->
  name ∉ action_interfaces_list ->
  exists pre bad post,
    Args.interfaces args = (pre ++ bad :: post)%list /\
    Forall (fun n => n ∈ action_interfaces_list) pre /\
    (bad ∉ action_interfaces_list) /\
    main_start constants ActionModule get_action_class get_action args
    = ([], inl (Returned (String "034"%char
                            (bad +:+ String "034"%char " is incorrect interface name.")))).
Proof.
  intros Hin Hbad.
  destruct (check_interfaces (Args.interfaces args)) as [bad|] eqn:Hcheck.
  - apply main_start_rejects
      with (constants := constants) (ActionModule := ActionModule)
           (get_action_class := get_action_class) (get_action := get_action) in Hcheck as Hmain.
    unfold check_interfaces in Hcheck.
    apply find_split in Hcheck as (pre & post & Heq & Hpre & Hfail).
    exists pre, bad, post. split; [done |]. split; [| split].
    + eapply Forall_impl; [exact Hpre |]. intros n Hn. cbv beta in Hn.
      apply mem_true. by destruct (Str.mem n action_interfaces_list).
    + apply mem_false. by destruct (Str.mem bad action_interfaces_list).
    + exact Hmain.
  - exfalso. apply check_interfaces_none in Hcheck.
    rewrite Forall_forall in Hcheck. apply Hbad.
    rewrite action_interfaces_list_eq. apply Hcheck. done.
Qed.

Lemma invalid_interface_before_any_effect_bogus :
  exists pre bad post,
    ["status_topic"; "bogus"] = (pre ++ bad :: post)%list /\
    Forall (fun n => n ∈ action_interfaces_list) pre /\
    (bad ∉ action_interfaces_list) /\
    Demo.main_start (Demo.args ["status_topic"; "bogus"] 100 false)
    = ([], inl (Returned (String "034"%char
                            (bad +:+ String "034"%char " is incorrect interface name.")))).
Proof.
  apply (invalid_interface_before_any_effect
           Demo.constants Demo.ActionModule Demo.get_action_class Demo.get_action
           (Demo.args ["status_topic"; "bogus"] 100 false) "bogus").
  - simpl. apply mem_true. reflexivity.
  - apply mem_false. reflexivity.
Defined.

Example bogus_interface_message :
  Demo.main_start (Demo.args ["status_topic"; "bogus"] 100 false)
  = ([], inl (Returned (String "034"%char
                          ("bogus" +:+ String "034"%char " is incorrect interface name.")))).
Proof. reflexivity. Qed.

(** ** The queue between the callbacks and the printer *)

Lemma omap_cons_app {A B : Type} (f : A -> option B) (x : A) (l : list A) :
  omap f (x :: l) = (omap f [x] ++ omap f l)%list.
Proof. cbn. by destruct (f x). Qed.

Lemma pushed_cons (o : obs) (os : list obs) :
  pushed (o :: os) = (pushed [o] ++ pushed os)%list.
Proof. apply omap_cons_app. Qed.

Lemma popped_cons (o : obs) (os : list obs) :
  popped (o :: os) = (popped [o] ++ popped os)%list.
Proof. apply omap_cons_app. Qed.

Lemma printed_cons (o : obs) (os : list obs) :
  printed (o :: os) = (printed [o] ++ printed os)%list.
Proof. apply omap_cons_app. Qed.

Lemma dropped_cons (o : obs) (os : list obs) :
  dropped (o :: os) = (dropped [o] ++ dropped os)%list.
Proof. apply omap_cons_app. Qed.

Lemma full_true (q : Queue.t) :
  Queue.full q = true <-> 0 < Queue.maxsize q /\ Queue.maxsize q <= Queue.qsize q.
Proof. unfold Queue.full. rewrite andb_true_iff, Z.ltb_lt, Z.leb_le. done. Qed.

Lemma full_false (q : Queue.t) :
  0 < Queue.maxsize q -> Queue.full q = false -> Queue.qsize q < Queue.maxsize q.
Proof.
  intros Hpos Hfull. destruct (Z.lt_ge_cases (Queue.qsize q) (Queue.maxsize q)); [done |].
  assert (Queue.full q = true) by (by apply full_true). congruence.
Qed.

Lemma pops_all (n : nat) (q : Queue.t) :
  (length (Queue.items q) <= n)%nat ->
  fst (pops n q) = Queue.items q /\ Queue.items (snd (pops n q)) = [].
Proof.
  revert q. induction n as [|n IH]; intros [m its u] Hlen; simpl in *.
  - destruct its; simpl in *; [done | lia].
  - unfold Queue.get; simpl. destruct its as [|r rest]; simpl; [done |].
    specialize (IH (Queue.task_done (Queue.mk m rest u))). simpl in IH.
    destruct (pops n _) as [rs q'] eqn:Hp. simpl in *.
    destruct IH as [IH1 IH2]; [lia |]. by rewrite IH1.
Qed.

Section Traces.

Variable Msg : Type.
Variable message_to_csv : Msg -> option Z -> bool -> bool -> string.
Variable message_to_ordereddict : Msg -> option Z -> bool -> bool -> odict.
Variable yaml_dump : odict -> bool -> string.

Local Abbreviation to_print' := (to_print Msg message_to_csv message_to_ordereddict yaml_dump).
Local Abbreviation callback_of' := (callback_of Msg message_to_csv message_to_ordereddict yaml_dump).
Local Abbreviation step' := (step Msg message_to_csv message_to_ordereddict yaml_dump).
Local Abbreviation run' := (run Msg message_to_csv message_to_ordereddict yaml_dump).

Lemma callback_of_base (i : ActionInterfaces) (verb : EchoVerb) (out : list string)
    (msg : Msg) :
  callback_of' i verb out msg
  = _base_subscriber_callback Msg message_to_csv message_to_ordereddict yaml_dump
      verb out msg (value i).
Proof. by destruct i. Qed.

(** The text of a message does not depend on the queue. *)
Lemma to_print_queue (verb : EchoVerb) (q : Queue.t) (msg : Msg) (interface : string) :
  to_print' (set_output_msg_queue verb q) msg interface = to_print' verb msg interface.
Proof. reflexivity. Qed.

(** The three ways a call of a callback can go. *)
Lemma callback_cases (i : ActionInterfaces) (verb : EchoVerb) (out : list string)
    (msg : Msg) :
  match to_print' verb msg (value i) with
  | inl e => callback_of' i verb out msg = (Propagated e, verb, out)
  | inr text =>
      if Queue.full (output_msg_queue verb)
      then callback_of' i verb out msg
           = (Dropped text, verb, (out ++ [queue_full_warning])%list)
      else callback_of' i verb out msg
           = (Enqueued text,
              set_output_msg_queue verb
                (Queue.mk (Queue.maxsize (output_msg_queue verb))
                          (Queue.items (output_msg_queue verb) ++ [text])
                          (Queue.unfinished_tasks (output_msg_queue verb) + 1)),
              out)
  end.
Proof.
  rewrite callback_of_base. unfold _base_subscriber_callback, Queue.put.
  destruct (to_print' verb msg (value i)) as [e|text]; [done |].
  by destruct (Queue.full (output_msg_queue verb)).
Qed.

Ltac step_cases p e :=
  let i := fresh "i" in
  let msg := fresh "msg" in
  destruct e as [i msg| |]; cbn [step'];
  [ destruct (spinning p && subscribed p i) eqn:Hon;
    [ pose proof (callback_cases i (self p) (stdout p) msg) as Hcb;
      destruct (to_print' (self p) msg (value i));
      [ | destruct (Queue.full (output_msg_queue (self p))) eqn:Hfull ];
      rewrite Hcb; clear Hcb
    | ]
  | unfold handler_obs, message_handler, Queue.get;
    destruct (output_msg_thread p) eqn:Hpc;
    [ | | destruct (Queue.items (output_msg_queue (self p))) eqn:Hitems | | ]
  | unfold main_finish; destruct (spinning p) eqn:Hspin ].

(** One event keeps the queue first in, first out. *)
Lemma step_fifo (p : Process) (e : event Msg) :
  (items_of p ++ pushed [fst (step' p e)] = popped [fst (step' p e)] ++ items_of (snd (step' p e)))%list.
Proof.
  unfold items_of, queue_of.
  step_cases p e; cbn; rewrite ?app_nil_r; done.
Qed.

Lemma step_in_flight (p : Process) (e : event Msg) :
  (in_flight p ++ popped [fst (step' p e)]
   = printed [fst (step' p e)] ++ in_flight (snd (step' p e)))%list.
Proof.
  unfold in_flight.
  step_cases p e; cbn; rewrite ?Hpc, ?app_nil_r; try done.
  by destruct (run_thread p).
Qed.

Lemma run_cons (p : Process) (e : event Msg) (es : list (event Msg)) :
  run' p (e :: es)
  = (fst (step' p e) :: fst (run' (snd (step' p e)) es), snd (run' (snd (step' p e)) es)).
Proof.
  cbn [run]. destruct (step' p e) as [o p1]. cbn [fst snd].
  by destruct (run' p1 es).
Qed.

Lemma run_app (p : Process) (es1 es2 : list (event Msg)) :
  run' p (es1 ++ es2)
  = ((fst (run' p es1) ++ fst (run' (snd (run' p es1)) es2))%list,
     snd (run' (snd (run' p es1)) es2)).
Proof.
  revert p. induction es1 as [|e es1 IH]; intros p.
  - cbn. by destruct (run' p es2).
  - rewrite <- app_comm_cons, !run_cons. cbn [fst snd]. by rewrite IH.
Qed.

(** A whole schedule keeps the queue first in, first out: what was queued
    at the start followed by what was put is what was got followed by what
    is queued at the end. *)
Lemma run_fifo (es : list (event Msg)) (p : Process) :
  (items_of p ++ pushed (fst (run' p es)) = popped (fst (run' p es)) ++ items_of (snd (run' p es)))%list.
Proof.
  revert p. induction es as [|e es IH]; intros p.
  - cbn. by rewrite app_nil_r.
  - rewrite run_cons. cbn [fst snd].
    rewrite pushed_cons, popped_cons.
    rewrite app_assoc, step_fifo, <- app_assoc, IH. by rewrite app_assoc.
Qed.

Lemma run_in_flight (es : list (event Msg)) (p : Process) :
  (in_flight p ++ popped (fst (run' p es))
   = printed (fst (run' p es)) ++ in_flight (snd (run' p es)))%list.
Proof.
  revert p. induction es as [|e es IH]; intros p.
  - cbn. by rewrite app_nil_r.
  - rewrite run_cons. cbn [fst snd].
    rewrite printed_cons, popped_cons.
    rewrite app_assoc, step_in_flight, <- app_assoc, IH. by rewrite app_assoc.
Qed.

(** One event leaves the capacity alone and, when the capacity is positive,
    keeps the size within it. *)
Lemma step_bounded (p : Process) (e : event Msg) :
  Queue.maxsize (queue_of (snd (step' p e))) = Queue.maxsize (queue_of p) /\
  (0 < Queue.maxsize (queue_of p) ->
   Queue.qsize (queue_of p) <= Queue.maxsize (queue_of p) ->
   Queue.qsize (queue_of (snd (step' p e))) <= Queue.maxsize (queue_of p)).
Proof.
  unfold queue_of.
  step_cases p e; cbn; try (split; [done | by intros]).
  - split; [done |]. intros Hpos _. apply full_false in Hfull; [| done].
    unfold Queue.qsize in *. cbn. rewrite length_app. cbn. lia.
  - split; [done |]. unfold Queue.qsize. rewrite Hitems. cbn. lia.
Qed.

Lemma run_bounded (es : list (event Msg)) (p : Process) :
  Queue.maxsize (queue_of (snd (run' p es))) = Queue.maxsize (queue_of p) /\
  (0 < Queue.maxsize (queue_of p) ->
   Queue.qsize (queue_of p) <= Queue.maxsize (queue_of p) ->
   Queue.qsize (queue_of (snd (run' p es))) <= Queue.maxsize (queue_of p)).
Proof.
  revert p. induction es as [|e es IH]; intros p.
  - cbn. split; [done | by intros].
  - rewrite run_cons. cbn [snd].
    destruct (IH (snd (step' p e))) as [IH1 IH2].
    destruct (step_bounded p e) as [S1 S2].
    rewrite IH1, S1. split; [done |]. intros Hpos Hle.
    rewrite S1 in IH2. apply IH2; [done |]. by apply S2.
Qed.

(** A delivery on a subscribed stream whose message renders to [text], in
    a process that differs from [p0] by its queue and its output only. *)
Lemma step_deliver (p0 p : Process) (d : ActionInterfaces * Msg) (text : string) :
  subscribed p0 (fst d) = true ->
  to_print' (self p0) (snd d) (value (fst d)) = inr text ->
  spinning p = true ->
  subscriptions p = subscriptions p0 ->
  self p = set_output_msg_queue (self p0) (queue_of p) ->
  step' p (deliver d)
  = if Queue.full (queue_of p)
    then (Called (fst d) (Dropped text),
          mkProcess (self p) (run_thread p) (output_msg_thread p)
            (subscriptions p) true (stdout p ++ [queue_full_warning]))
    else (Called (fst d) (Enqueued text),
          mkProcess
            (set_output_msg_queue (self p)
               (Queue.mk (Queue.maxsize (queue_of p))
                         (items_of p ++ [text])
                         (Queue.unfinished_tasks (queue_of p) + 1)))
            (run_thread p) (output_msg_thread p)
            (subscriptions p) true (stdout p)).
Proof.
  intros Hsub Htext Hspin Hsubs Hself.
  unfold deliver. cbn [step]. unfold subscribed in *.
  rewrite Hspin, Hsubs, Hsub. cbn [andb].
  pose proof (callback_cases (fst d) (self p) (stdout p) (snd d)) as Hcb.
  rewrite Hself, to_print_queue, Htext, <- Hself in Hcb.
  fold (queue_of p) in Hcb. unfold items_of.
  destruct (Queue.full (queue_of p)); by rewrite Hcb, ?Hspin.
Qed.

(** A burst of deliveries with no printer step in between: the records that
    find room are put, in order, and the others are dropped. *)
Lemma run_deliveries (p0 : Process) (ds : list (ActionInterfaces * Msg))
    (texts : list string) :
  Forall2 (fun d text =>
             subscribed p0 (fst d) = true /\
             to_print' (self p0) (snd d) (value (fst d)) = inr text) ds texts ->
  forall p,
    spinning p = true ->
    subscriptions p = subscriptions p0 ->
    self p = set_output_msg_queue (self p0) (queue_of p) ->
    0 < Queue.maxsize (queue_of p) ->
    Queue.qsize (queue_of p) <= Queue.maxsize (queue_of p) ->
    let room := Z.to_nat (Queue.maxsize (queue_of p) - Queue.qsize (queue_of p)) in
    let os := fst (run' p (map deliver ds)) in
    let p' := snd (run' p (map deliver ds)) in
    pushed os = take room texts /\
    dropped os = drop room texts /\
    popped os = [] /\
    items_of p' = (items_of p ++ take room texts)%list /\
    stdout p' = (stdout p ++ replicate (length (drop room texts)) queue_full_warning)%list /\
    spinning p' = true /\
    subscriptions p' = subscriptions p0 /\
    self p' = set_output_msg_queue (self p0) (queue_of p').
Proof.
  induction 1 as [|d text ds texts [Hsub Htext] _ IH]; intros p Hspin Hsubs Hself Hpos Hle.
  - cbn. rewrite take_nil, drop_nil, !app_nil_r. done.
  - cbn zeta. rewrite map_cons, run_cons. cbn [fst snd].
    rewrite pushed_cons, dropped_cons, popped_cons.
    rewrite (step_deliver p0 p d text) by done.
    destruct (Queue.full (queue_of p)) eqn:Hfull; cbn [fst snd].
    + assert (Queue.maxsize (queue_of p) - Queue.qsize (queue_of p) = 0) as Hroom.
      { apply full_true in Hfull. lia. }
      set (p1 := mkProcess (self p) (run_thread p) (output_msg_thread p)
                   (subscriptions p) true (stdout p ++ [queue_full_warning])).
      assert (queue_of p1 = queue_of p) as Hq1 by reflexivity.
      destruct (IH p1) as (I1 & I2 & I3 & I4 & I5 & I6); try done; try (by rewrite Hq1).
      assert (items_of p1 = items_of p) as Hi1 by reflexivity.
      rewrite Hi1 in I4. rewrite Hq1 in *. rewrite Hroom in *.
      change (Z.to_nat 0) with 0%nat in *. rewrite take_0, drop_0 in *.
      rewrite I1, I2, I3, I4, I5. cbn. rewrite <- app_assoc. done.
    + set (q1 := Queue.mk (Queue.maxsize (queue_of p)) (items_of p ++ [text])
                   (Queue.unfinished_tasks (queue_of p) + 1)).
      set (p1 := mkProcess (set_output_msg_queue (self p) q1)
                   (run_thread p) (output_msg_thread p)
                   (subscriptions p) true (stdout p)).
      assert (queue_of p1 = q1) as Hq1 by reflexivity.
      assert (Queue.qsize q1 = Queue.qsize (queue_of p) + 1) as Hsize.
      { unfold q1, Queue.qsize, items_of. cbn. rewrite length_app. cbn. lia. }
      assert (Queue.maxsize q1 = Queue.maxsize (queue_of p)) as Hmax by reflexivity.
      assert (Queue.qsize (queue_of p) < Queue.maxsize (queue_of p)) as Hlt.
      { by apply full_false. }
      destruct (IH p1) as (I1 & I2 & I3 & I4 & I5 & I6); try done.
      { rewrite Hq1. unfold p1. cbn [self]. by rewrite Hself. }
      { rewrite Hq1, Hmax, Hsize. lia. }
      assert (items_of p1 = (items_of p ++ [text])%list) as Hi1 by reflexivity.
      rewrite Hi1 in I4. rewrite Hq1 in *. rewrite Hmax, Hsize in *.
      replace (Z.to_nat (Queue.maxsize (queue_of p) - Queue.qsize (queue_of p)))
        with (S (Z.to_nat (Queue.maxsize (queue_of p) - (Queue.qsize (queue_of p) + 1))))
        by lia.
      cbn [take drop].
      rewrite I1, I2, I3, I4, I5. cbn. rewrite <- app_assoc. done.
Qed.

(** While [main] is in its loop nothing has changed the subscriptions or the
    stop flag, and the printer thread, once alive, is still alive. *)
Lemma step_spinning (p : Process) (e : event Msg) :
  spinning (snd (step' p e)) = true ->
  spinning p = true /\
  subscriptions (snd (step' p e)) = subscriptions p /\
  run_thread (snd (step' p e)) = run_thread p /\
  (is_alive (output_msg_thread p) = true -> run_thread p = true ->
   is_alive (output_msg_thread (snd (step' p e))) = true).
Proof.
  step_cases p e; cbn; try done; rewrite ?Hpc; try done.
  - intros Hs. repeat (split; [done |]). by intros _ ->.
  - congruence.
Qed.

Lemma run_spinning (es : list (event Msg)) (p : Process) :
  spinning (snd (run' p es)) = true ->
  spinning p = true /\
  subscriptions (snd (run' p es)) = subscriptions p /\
  run_thread (snd (run' p es)) = run_thread p /\
  (is_alive (output_msg_thread p) = true -> run_thread p = true ->
   is_alive (output_msg_thread (snd (run' p es))) = true).
Proof.
  revert p. induction es as [|e es IH]; intros p.
  - by cbn.
  - rewrite run_cons. cbn [snd]. intros Hs.
    destruct (IH _ Hs) as (I1 & I2 & I3 & I4).
    destruct (step_spinning p e I1) as (S1 & S2 & S3 & S4).
    split; [done |]. split; [congruence |]. split; [congruence |].
    intros Ha Hr. apply I4; [by apply S4 | congruence].
Qed.

(** Once the loop has ended and the stop flag is set, no callback runs, and
    the printer gets at most the one record it was already waiting for. *)
Lemma step_stopped (p : Process) (e : event Msg) :
  run_thread p = false ->
  spinning p = false ->
  run_thread (snd (step' p e)) = false /\
  spinning (snd (step' p e)) = false /\
  pushed [fst (step' p e)] = [] /\
  dropped [fst (step' p e)] = [] /\
  (length (popped [fst (step' p e)]) + gets_left (snd (step' p e)) <= gets_left p)%nat.
Proof.
  intros Hrun Hspin. unfold gets_left.
  destruct e as [i msg| |]; cbn [step]; rewrite ?Hspin; cbn; try done.
  unfold handler_obs, message_handler, Queue.get.
  destruct (output_msg_thread p) eqn:Hpc; cbn; rewrite ?Hpc, ?Hrun, ?Hspin; try done.
  destruct (Queue.items (output_msg_queue (self p))); cbn; repeat split; lia.
Qed.

Lemma run_stopped (es : list (event Msg)) (p : Process) :
  run_thread p = false ->
  spinning p = false ->
  pushed (fst (run' p es)) = [] /\
  dropped (fst (run' p es)) = [] /\
  (length (popped (fst (run' p es))) + gets_left (snd (run' p es)) <= gets_left p)%nat.
Proof.
  revert p. induction es as [|e es IH]; intros p Hrun Hspin.
  - cbn. repeat split; lia.
  - rewrite run_cons. cbn [fst snd].
    destruct (step_stopped p e Hrun Hspin) as (S1 & S2 & S3 & S4 & S5).
    destruct (IH _ S1 S2) as (I1 & I2 & I3).
    rewrite pushed_cons, dropped_cons, popped_cons, S3, S4, I1, I2, length_app.
    repeat split; lia.
Qed.

(** *** Further facts about one event and about schedules *)

(** An event changes nothing of the verb but its queue. *)
Lemma step_frame (p : Process) (e : event Msg) :
  self (snd (step' p e)) = set_output_msg_queue (self p) (queue_of (snd (step' p e))).
Proof.
  unfold queue_of. step_cases p e; cbn; by destruct (self p).
Qed.

Lemma run_frame (es : list (event Msg)) (p : Process) :
  self (snd (run' p es)) = set_output_msg_queue (self p) (queue_of (snd (run' p es))).
Proof.
  revert p. induction es as [|e es IH]; intros p.
  - cbn. unfold queue_of. by destruct (self p).
  - rewrite run_cons. cbn [snd]. rewrite IH. by rewrite step_frame at 1.
Qed.

(** What an event writes to standard output. *)
Lemma step_stdout (p : Process) (e : event Msg) :
  stdout (snd (step' p e)) = (stdout p ++ lines_of [fst (step' p e)])%list.
Proof.
  step_cases p e; cbn; by rewrite ?app_nil_r.
Qed.

Lemma run_stdout (es : list (event Msg)) (p : Process) :
  stdout (snd (run' p es)) = (stdout p ++ lines_of (fst (run' p es)))%list.
Proof.
  revert p. induction es as [|e es IH]; intros p.
  - cbn. by rewrite app_nil_r.
  - rewrite run_cons. cbn [fst snd]. rewrite IH, step_stdout, <- app_assoc.
    f_equal. unfold lines_of. cbn. by rewrite app_nil_r.
Qed.

(** A queue without a positive capacity never refuses a record. *)
Lemma step_unbounded (p : Process) (e : event Msg) :
  Queue.maxsize (queue_of p) <= 0 -> dropped [fst (step' p e)] = [].
Proof.
  unfold queue_of. intros Hmax.
  step_cases p e; cbn; try done.
  apply full_true in Hfull. lia.
Qed.

Lemma run_unbounded (es : list (event Msg)) (p : Process) :
  Queue.maxsize (queue_of p) <= 0 -> dropped (fst (run' p es)) = [].
Proof.
  revert p. induction es as [|e es IH]; intros p Hmax; [done |].
  rewrite run_cons. cbn [fst]. rewrite dropped_cons, step_unbounded by done.
  apply IH. by rewrite (proj1 (step_bounded p e)).
Qed.

(** After [main] has left its loop without clearing the flag, nothing clears
    it. *)
Lemma step_left_running (p : Process) (e : event Msg) :
  spinning p = false ->
  run_thread p = true ->
  is_alive (output_msg_thread p) = true ->
  spinning (snd (step' p e)) = false /\
  run_thread (snd (step' p e)) = true /\
  is_alive (output_msg_thread (snd (step' p e))) = true /\
  stream_events [fst (step' p e)] = [].
Proof.
  intros Hspin Hrun Halive.
  destruct e as [i msg| |]; cbn [step]; rewrite ?Hspin; cbn; try done.
  unfold message_handler, handler_obs, Queue.get.
  destruct (output_msg_thread p) eqn:Hpc; try done; cbn; rewrite ?Hrun; try done.
  destruct (Queue.items (output_msg_queue (self p))); done.
Qed.

Lemma run_left_running (es : list (event Msg)) (p : Process) :
  spinning p = false ->
  run_thread p = true ->
  is_alive (output_msg_thread p) = true ->
  spinning (snd (run' p es)) = false /\
  run_thread (snd (run' p es)) = true /\
  is_alive (output_msg_thread (snd (run' p es))) = true /\
  stream_events (fst (run' p es)) = [].
Proof.
  revert p. induction es as [|e es IH]; intros p Hspin Hrun Halive; [done |].
  rewrite run_cons. cbn [fst snd].
  destruct (step_left_running p e Hspin Hrun Halive) as (S1 & S2 & S3 & S4).
  destruct (IH _ S1 S2 S3) as (I1 & I2 & I3 & I4).
  repeat (split; [done |]).
  unfold stream_events in *. rewrite omap_cons_app, S4, I4. done.
Qed.

(** In CSV mode no delivery and no printer step ends the loop. *)
Lemma step_csv (p : Process) (e : event Msg) :
  csv (self p) = true ->
  spinning p = true ->
  e <> Interrupt ->
  spinning (snd (step' p e)) = true /\ csv (self (snd (step' p e))) = true.
Proof.
  intros Hcsv Hspin He.
  destruct e as [i msg| |]; [| | done]; cbn [step].
  - destruct (spinning p && subscribed p i); [| done].
    pose proof (callback_cases i (self p) (stdout p) msg) as Hcb.
    unfold to_print in Hcb. rewrite Hcsv in Hcb.
    destruct (Queue.full (output_msg_queue (self p))); rewrite Hcb; by cbn.
  - unfold message_handler, Queue.get.
    destruct (output_msg_thread p); try done.
    destruct (Queue.items (output_msg_queue (self p))); done.
Qed.

End Traces.

(** ** What [main] starts with *)

Section Start.

Variable constants : list (string * Z).
Variable ActionModule : Type.
Variable get_action_class get_action : string -> exn + option ActionModule.

Local Abbreviation main_start' :=
  (main_start constants ActionModule get_action_class get_action).

(** The process [main] hands to its loop, and the end of its log. *)
Lemma main_start_running (args : Args.t) (log : list effect) (p0 : Process) :
  main_start' args = (log, inr p0) ->
  check_interfaces (Args.interfaces args) = None /\
  queue_of p0 = Queue.new (Args.queue_size args) /\
  csv (self p0) = Args.csv args /\
  run_thread p0 = true /\
  output_msg_thread p0 = AtWhile /\
  spinning p0 = true /\
  stdout p0 = [] /\
  subscriptions p0
  = map (subscription_of (Args.action_name args))
        (filter (fun i => selected (Args.interfaces args) i = true) all_interfaces) /\
  exists log0,
    (log0 = [] \/ log0 = [NodeCreated]) /\
    log = (log0 ++ [QueueCreated (Args.queue_size args); ThreadStarted; NodeCreated]
                ++ map SubscriptionCreated (subscriptions p0) ++ [NodeAdded])%list.
Proof.
  unfold main_start, load_action_module.
  destruct (check_interfaces (Args.interfaces args)); [done |].
  intros H. split; [done |].
  destruct (Args.action_type args) as [ty|].
  - destruct (get_action ty) as [e|[m|]]; cbn in H; try destruct (caught e);
      inversion H; subst; cbn; repeat (split; [done |]); exists []; by split; [left |].
  - destruct (get_action_class (Args.action_name args)) as [e|[m|]]; cbn in H;
      try destruct (caught e);
      inversion H; subst; cbn; repeat (split; [done |]); exists [NodeCreated];
      by split; [right |].
Qed.

End Start.

(** ** First in, first out *)

(** C1: in any schedule of deliveries on the five streams and printer steps
    that follows the start of [main], the records the callbacks put
    successfully are exactly the records already got followed by what the
    remaining gets return, in the order of the puts; with N successful puts,
    N gets yield those N records in that order, and what has been printed is
    a prefix of them.  The order is that of the calls, whatever the stream. *)
Theorem fifo_order (Msg : Type)
    (message_to_csv : Msg -> option Z -> bool -> bool -> string)
    (message_to_ordereddict : Msg -> option Z -> bool -> bool -> odict)
    (yaml_dump : odict -> bool -> string)
    (constants : list (string * Z)) (ActionModule : Type)
    (get_action_class get_action : string -> exn + option ActionModule)
    (args : Args.t) (log : list effect) (p0 : Process) (events : list (event Msg)) :
  main_start constants ActionModule get_action_class get_action args = (log, inr p0) ->
  let os := fst (run Msg message_to_csv message_to_ordereddict yaml_dump p0 events) in
  let p := snd (run Msg message_to_csv message_to_ordereddict yaml_dump p0 events) in
  (popped os ++ fst (pops (length (pushed os) - length (popped os)) (queue_of p)))%list
  = pushed os
  /\ printed os `prefix_of` pushed os.
Proof.
  intros Hstart os p.
  apply main_start_running in Hstart as (_ & Hq & _ & _ & Hpc & _).
  pose proof (run_fifo Msg message_to_csv message_to_ordereddict yaml_dump events p0) as Hfifo.
  pose proof (run_in_flight Msg message_to_csv message_to_ordereddict yaml_dump events p0)
    as Hprint.
  fold os p in Hfifo, Hprint.
  unfold items_of in Hfifo at 1. rewrite Hq in Hfifo. cbn in Hfifo.
  unfold in_flight in Hprint at 1. rewrite Hpc in Hprint. cbn in Hprint.
  split.
  - rewrite Hfifo at 1 2. rewrite length_app.
    replace (length (popped os) + length (items_of p) - length (popped os))%nat
      with (length (items_of p)) by lia.
    unfold items_of. by rewrite (proj1 (pops_all _ (queue_of p) (le_n _))).
  - rewrite Hfifo, Hprint, <- app_assoc. by eexists.
Qed.

Lemma fifo_order_three_streams :
  let events :=
    [Deliver STATUS_TOPIC (Demo.status_message 1);
     Deliver GOAL_SERVICE (Demo.service_event 1 7);
     Handler; Handler; Handler;
     Deliver FEEDBACK_TOPIC (Demo.status_message 2);
     Deliver CANCEL_SERVICE (Demo.service_event 0 8)] in
  let os := fst (Demo.run (Demo.started (Demo.args [] 3 false)) events) in
  let p := snd (Demo.run (Demo.started (Demo.args [] 3 false)) events) in
  (popped os ++ fst (pops (length (pushed os) - length (popped os)) (queue_of p)))%list
  = pushed os
  /\ printed os `prefix_of` pushed os.
Proof.
  apply (fifo_order Demo.Msg Demo.message_to_csv Demo.message_to_ordereddict Demo.yaml_dump
           Demo.constants Demo.ActionModule Demo.get_action_class Demo.get_action
           (Demo.args [] 3 false)
           (fst (Demo.main_start (Demo.args [] 3 false)))
           (Demo.started (Demo.args [] 3 false))).
  reflexivity.
Defined.

Example three_streams_counts :
  let events :=
    [Deliver STATUS_TOPIC (Demo.status_message 1);
     Deliver GOAL_SERVICE (Demo.service_event 1 7);
     Handler; Handler; Handler;
     Deliver FEEDBACK_TOPIC (Demo.status_message 2);
     Deliver CANCEL_SERVICE (Demo.service_event 0 8)] in
  let os := fst (Demo.run (Demo.started (Demo.args [] 3 false)) events) in
  length (pushed os) = 4%nat /\ length (popped os) = 1%nat /\ length (printed os) = 1%nat.
Proof. vm_compute. done. Qed.

(** ** Capacity *)

Lemma parse_args_default_queue_size (cl : Cli.t) (args : Args.t) :
  Cli.queue_size cl = None -> parse_args cl = inr args -> Args.queue_size args = 100.
Proof.
  unfold parse_args. intros ->.
  destruct (Cli.truncate_length cl) as [l|]; [destruct (unsigned_int l) |]; cbn;
    intros H; by inversion H.
Qed.

Lemma self_queue_of (p : Process) : self p = set_output_msg_queue (self p) (queue_of p).
Proof. unfold queue_of. by destruct (self p). Qed.

(** C6: the queue [main] constructs with a positive size keeps that size as
    its capacity and never holds more records than it, whatever the schedule
    (the size is 100 when [--queue-size] is not given).  When as many
    deliveries as the capacity are followed by one more, with no get and the
    put's wait elapsing, the first ones are all put, the last one meets
    [Full] and prints the warning, and one get more than the capacity then
    yields exactly the records of the first ones. *)
Theorem queue_bounded_by_capacity (Msg : Type)
    (message_to_csv : Msg -> option Z -> bool -> bool -> string)
    (message_to_ordereddict : Msg -> option Z -> bool -> bool -> odict)
    (yaml_dump : odict -> bool -> string)
    (constants : list (string * Z)) (ActionModule : Type)
    (get_action_class get_action : string -> exn + option ActionModule)
    (args : Args.t) (log : list effect) (p0 : Process) :
  main_start constants ActionModule get_action_class get_action args = (log, inr p0) ->
  0 < Args.queue_size args ->
  (forall cl, Cli.queue_size cl = None -> parse_args cl = inr args ->
              Args.queue_size args = 100) /\
  (forall events,
     let p := snd (run Msg message_to_csv message_to_ordereddict yaml_dump p0 events) in
     Queue.maxsize (queue_of p) = Args.queue_size args /\
     Queue.qsize (queue_of p) <= Args.queue_size args) /\
  (forall ds texts d text,
     Forall2 (fun d text =>
                subscribed p0 (fst d) = true /\
                to_print Msg message_to_csv message_to_ordereddict yaml_dump
                  (self p0) (snd d) (value (fst d)) = inr text) ds texts ->
     length ds = Z.to_nat (Args.queue_size args) ->
     subscribed p0 (fst d) = true ->
     to_print Msg message_to_csv message_to_ordereddict yaml_dump
       (self p0) (snd d) (value (fst d)) = inr text ->
     let os := fst (run Msg message_to_csv message_to_ordereddict yaml_dump p0
                        (map deliver (ds ++ [d]))) in
     let p := snd (run Msg message_to_csv message_to_ordereddict yaml_dump p0
                       (map deliver (ds ++ [d]))) in
     exists os1,
       os = (os1 ++ [Called (fst d) (Dropped text)])%list /\
       pushed os1 = texts /\
       dropped os1 = [] /\
       stdout p = [queue_full_warning] /\
       fst (pops (S (length ds)) (queue_of p)) = texts /\
       length texts = length ds /\
       Queue.items (snd (pops (S (length ds)) (queue_of p))) = []).
Proof.
  intros Hstart Hpos.
  apply main_start_running in Hstart
    as (_ & Hq & _ & _ & _ & Hspin & Hout & _).
  assert (Queue.maxsize (queue_of p0) = Args.queue_size args) as Hmax by (by rewrite Hq).
  assert (Queue.qsize (queue_of p0) = 0) as Hsize by (by rewrite Hq).
  split; [intros cl; apply parse_args_default_queue_size |]. split.
  - intros events p.
    destruct (run_bounded Msg message_to_csv message_to_ordereddict yaml_dump events p0)
      as [B1 B2].
    fold p in B1, B2. rewrite Hmax in *. split; [done |]. apply B2; [done | lia].
  - intros ds texts d text Hall Hlen Hsub Htext os p.
    pose proof (Forall2_length _ _ _ Hall) as Hlens.
    pose proof (run_deliveries Msg message_to_csv message_to_ordereddict yaml_dump
                  p0 ds texts Hall p0 Hspin eq_refl (self_queue_of p0)) as Hburst.
    rewrite Hmax, Hsize in Hburst. specialize (Hburst Hpos ltac:(lia)).
    cbn zeta in Hburst.
    replace (Z.to_nat (Args.queue_size args - 0)) with (length texts) in Hburst by lia.
    rewrite take_ge, drop_ge in Hburst by lia.
    destruct Hburst as (H1 & H2 & _ & H4 & H5 & H6 & H7 & H8).
    unfold items_of at 2 in H4. rewrite Hq in H4. rewrite Hout in H5. cbn in H4, H5.
    set (p1 := snd (run Msg message_to_csv message_to_ordereddict yaml_dump p0
                        (map deliver ds))) in *.
    assert (Queue.full (queue_of p1) = true) as Hfull.
    { apply full_true.
      destruct (run_bounded Msg message_to_csv message_to_ordereddict yaml_dump
                  (map deliver ds) p0) as [B1 _].
      fold p1 in B1. rewrite B1, Hmax. split; [done |].
      unfold Queue.qsize. fold (items_of p1). rewrite H4. lia. }
    pose proof (step_deliver Msg message_to_csv message_to_ordereddict yaml_dump
                  p0 p1 d text Hsub Htext H6 H7 H8) as Hstep.
    rewrite Hfull in Hstep.
    assert (os = (fst (run Msg message_to_csv message_to_ordereddict yaml_dump p0
                          (map deliver ds)) ++ [Called (fst d) (Dropped text)])%list
            /\ p = mkProcess (self p1) (run_thread p1) (output_msg_thread p1)
                     (subscriptions p1) true (stdout p1 ++ [queue_full_warning]))
      as [Hos Hp].
    { unfold os, p. rewrite map_app, run_app. fold p1. cbn [map fst snd].
      rewrite run_cons, Hstep. done. }
    eexists. split; [exact Hos |]. split; [done |]. split; [done |].
    rewrite Hp. cbn [stdout]. rewrite H5. split; [done |].
    change (queue_of (mkProcess (self p1) (run_thread p1) (output_msg_thread p1)
                        (subscriptions p1) true ([] ++ [queue_full_warning])))
      with (queue_of p1).
    destruct (pops_all (S (length ds)) (queue_of p1)) as [P1 P2].
    { fold (items_of p1). rewrite H4. lia. }
    fold (items_of p1) in P1. rewrite P1, H4. done.
Qed.

Lemma queue_bounded_by_capacity_two :
  let p0 := Demo.started (Demo.args [] 2 true) in
  let ds := [(GOAL_SERVICE, Demo.service_event 0 1); (STATUS_TOPIC, Demo.status_message 5)] in
  let d := (FEEDBACK_TOPIC, Demo.status_message 6) in
  let os := fst (Demo.run p0 (map deliver (ds ++ [d]))) in
  let p := snd (Demo.run p0 (map deliver (ds ++ [d]))) in
  Queue.qsize (queue_of p) <= 2 /\
  exists os1,
    os = (os1 ++ [Called FEEDBACK_TOPIC
                    (Dropped ("interface: FEEDBACK_TOPIC" +:+ Str.nl +:+ "[...]"))])%list /\
    pushed os1 = ["interface: GOAL_SERVICE" +:+ Str.nl +:+ "0,1";
                  "interface: STATUS_TOPIC" +:+ Str.nl +:+ "[...]"] /\
    dropped os1 = [] /\
    stdout p = [queue_full_warning] /\
    fst (pops 3 (queue_of p))
    = ["interface: GOAL_SERVICE" +:+ Str.nl +:+ "0,1";
       "interface: STATUS_TOPIC" +:+ Str.nl +:+ "[...]"] /\
    length ["interface: GOAL_SERVICE" +:+ Str.nl +:+ "0,1";
            "interface: STATUS_TOPIC" +:+ Str.nl +:+ "[...]"] = 2%nat /\
    Queue.items (snd (pops 3 (queue_of p))) = [].
Proof.
  intros p0 ds d os p.
  destruct (queue_bounded_by_capacity
              Demo.Msg Demo.message_to_csv Demo.message_to_ordereddict Demo.yaml_dump
              Demo.constants Demo.ActionModule Demo.get_action_class Demo.get_action
              (Demo.args [] 2 true)
              (fst (Demo.main_start (Demo.args [] 2 true))) p0)
    as (_ & Hbound & Hburst).
  - reflexivity.
  - reflexivity.
  - split.
    + apply (Hbound (map deliver (ds ++ [d]))).
    + apply (Hburst ds _ d).
      * repeat constructor.
      * reflexivity.
      * reflexivity.
      * reflexivity.
Defined.

(** ** The text of a record *)

Lemma append_assoc (a b c : string) : (a +:+ b) +:+ c = a +:+ (b +:+ c).
Proof.
  induction a as [|x a IH]; [done |].
  change (String x ((a +:+ b) +:+ c) = String x (a +:+ (b +:+ c))). by f_equal.
Qed.

Section Records.

Variable Msg : Type.
Variable message_to_csv : Msg -> option Z -> bool -> bool -> string.
Variable message_to_ordereddict : Msg -> option Z -> bool -> bool -> odict.
Variable yaml_dump : odict -> bool -> string.

Local Abbreviation to_print' := (to_print Msg message_to_csv message_to_ordereddict yaml_dump).
Local Abbreviation callback_of' :=
  (callback_of Msg message_to_csv message_to_ordereddict yaml_dump).
Local Abbreviation step' := (step Msg message_to_csv message_to_ordereddict yaml_dump).

(** The only exceptions the rendering can raise. *)
Lemma replace_event_type_raises (verb : EchoVerb) (msgdict : odict) (e : exn) :
  replace_event_type verb msgdict = inl e -> e = KeyError \/ e = TypeError.
Proof.
  assert (forall k d, Dict.get k d = inl e -> e = KeyError) as Hget.
  { intros k d. induction d as [|[k' v] d IH]; cbn; [by inversion 1 |].
    by destruct (String.eqb k' k). }
  unfold replace_event_type, bind, contains_event_type, getitem_event_type,
    getitem_number, setitem_event_type.
  intros H. repeat case_match; simplify_eq; eauto.
Qed.

Lemma to_print_raises (verb : EchoVerb) (msg : Msg) (interface : string) (e : exn) :
  to_print' verb msg interface = inl e -> e = KeyError \/ e = TypeError.
Proof.
  unfold to_print, bind. destruct (csv verb); [done |].
  destruct (replace_event_type verb _) eqn:Hr; [| done].
  intros H. inversion H; subst. by eapply replace_event_type_raises.
Qed.

(** The layout of the text, by output mode. *)
Lemma to_print_layout (verb : EchoVerb) (msg : Msg) (interface text : string) :
  to_print' verb msg interface = inr text ->
  if csv verb
  then text = ("interface: " +:+ interface +:+ Str.nl)
              +:+ message_to_csv msg (truncate_length verb) (no_arr verb) (no_str verb)
  else exists msgdict,
      replace_event_type verb
        (message_to_ordereddict msg (truncate_length verb) (no_arr verb) (no_str verb))
      = inr msgdict /\
      text = ("interface: " +:+ interface +:+ Str.nl)
             +:+ yaml_dump msgdict (flow_style verb) +:+ "---".
Proof.
  unfold to_print, bind. destruct (csv verb).
  - intros H. by inversion H.
  - destruct (replace_event_type verb _) as [e|d]; [done |].
    intros H. inversion H. by exists d.
Qed.

End Records.

(** C2: when a delivery finds the queue full at the end of the put's wait,
    the callback returns normally: the record is not queued, the one warning
    that recommends [--queue_size] is printed, nothing else of the process
    changes, the loop goes on with the same subscriptions, and the next
    delivery on a subscribed stream runs its callback again.  No event ever
    lets [Full] out of a callback. *)
Theorem queue_full_is_recovered (Msg : Type)
    (message_to_csv : Msg -> option Z -> bool -> bool -> string)
    (message_to_ordereddict : Msg -> option Z -> bool -> bool -> odict)
    (yaml_dump : odict -> bool -> string)
    (p : Process) (i : ActionInterfaces) (msg : Msg) (text : string) :
  spinning p = true ->
  subscribed p i = true ->
  to_print Msg message_to_csv message_to_ordereddict yaml_dump (self p) msg (value i)
  = inr text ->
  Queue.full (queue_of p) = true ->
  let p' := snd (step Msg message_to_csv message_to_ordereddict yaml_dump p (Deliver i msg)) in
  step Msg message_to_csv message_to_ordereddict yaml_dump p (Deliver i msg)
  = (Called i (Dropped text),
     mkProcess (self p) (run_thread p) (output_msg_thread p) (subscriptions p) true
       (stdout p ++ [queue_full_warning])) /\
  items_of p' = items_of p /\
  queue_full_warning
  = "Output message is full! Please increase the queue size of output message by "
    +:+ Str.dquote +:+ "--queue_size" +:+ Str.dquote /\
  (forall i' msg',
     subscribed p i' = true ->
     exists o, fst (step Msg message_to_csv message_to_ordereddict yaml_dump p'
                         (Deliver i' msg')) = Called i' o) /\
  (forall q e j,
     fst (step Msg message_to_csv message_to_ordereddict yaml_dump q e)
     <> Called j (Propagated Full)).
Proof.
  intros Hspin Hsub Htext Hfull p'.
  assert (step Msg message_to_csv message_to_ordereddict yaml_dump p (Deliver i msg)
          = (Called i (Dropped text),
             mkProcess (self p) (run_thread p) (output_msg_thread p) (subscriptions p) true
               (stdout p ++ [queue_full_warning]))) as Hstep.
  { pose proof (step_deliver Msg message_to_csv message_to_ordereddict yaml_dump
                  p p (i, msg) text Hsub Htext Hspin eq_refl (self_queue_of p)) as H.
    by rewrite Hfull in H. }
  split; [exact Hstep |]. unfold p'. rewrite Hstep. cbn [snd].
  split; [done |]. split; [done |]. split.
  - intros i' msg' Hsub'. cbn [step spinning]. unfold subscribed in *.
    cbn [subscriptions]. rewrite Hsub'. cbn [andb].
    destruct (callback_of _ _ _ _ i' _ _ msg') as [[o verb] out]. by exists o.
  - intros q e j.
    destruct e as [i0 msg0| |]; cbn [step].
    + destruct (spinning q && subscribed q i0); [| done].
      pose proof (callback_cases Msg message_to_csv message_to_ordereddict yaml_dump
                    i0 (self q) (stdout q) msg0) as Hcb.
      destruct (to_print _ _ _ _ (self q) msg0 (value i0)) as [e|t] eqn:Hp.
      * rewrite Hcb. cbn. intros H. inversion H; subst.
        apply to_print_raises in Hp. by destruct Hp.
      * destruct (Queue.full (output_msg_queue (self q))); by rewrite Hcb.
    + unfold handler_obs. by repeat case_match.
    + by destruct (spinning q).
Qed.

Lemma queue_full_is_recovered_demo :
  let p := snd (Demo.run (Demo.started (Demo.args [] 1 false))
                  [Deliver STATUS_TOPIC (Demo.status_message 1)]) in
  let msg := Demo.service_event 2 9 in
  let text := "interface: RESULT_SERVICE" +:+ Str.nl
              +:+ Demo.yaml_dump
                    [("info", PDict [("event_type", PStr "RESPONSE_SENT");
                                     ("sequence_number", PInt 9)]);
                     ("request", PList []); ("response", PList [])] false
              +:+ "---" in
  Demo.step p (Deliver RESULT_SERVICE msg)
  = (Called RESULT_SERVICE (Dropped text),
     mkProcess (self p) (run_thread p) (output_msg_thread p) (subscriptions p) true
       (stdout p ++ [queue_full_warning])).
Proof.
  intros p msg text.
  apply (queue_full_is_recovered
           Demo.Msg Demo.message_to_csv Demo.message_to_ordereddict Demo.yaml_dump
           p RESULT_SERVICE msg text); reflexivity.
Defined.

(** C7 as stated fails in CSV mode: the record the callback queues, and the
    printer prints, for a goal-service event is not the comma-separated field
    list alone; it starts with the line naming the stream. *)
Lemma csv_record_is_not_bare_field_list :
  let p0 := Demo.started (Demo.args [] 100 true) in
  let msg := Demo.service_event 1 7 in
  let p := snd (Demo.run p0 [Deliver GOAL_SERVICE msg; Handler; Handler; Handler]) in
  csv (self p0) = true /\
  Demo.message_to_csv msg (truncate_length (self p0)) (no_arr (self p0)) (no_str (self p0))
  = "1,7" /\
  stdout p = ["interface: GOAL_SERVICE" +:+ Str.nl +:+ "1,7"] /\
  stdout p <> ["1,7"].
Proof. vm_compute. repeat split; congruence. Qed.

(** C7, amended: every record a callback queues starts with the line
    [interface: ] followed by the upper-case value of the stream, in both
    output modes.  In CSV mode the rest is the text of [message_to_csv],
    with no closing line; otherwise the rest is the YAML dump of the message
    dictionary followed by [---]. *)
Theorem record_layout (Msg : Type)
    (message_to_csv : Msg -> option Z -> bool -> bool -> string)
    (message_to_ordereddict : Msg -> option Z -> bool -> bool -> odict)
    (yaml_dump : odict -> bool -> string)
    (verb : EchoVerb) (out : list string) (msg : Msg) (i : ActionInterfaces)
    (record : string) :
  fst (fst (callback_of Msg message_to_csv message_to_ordereddict yaml_dump i verb out msg))
  = Enqueued record ->
  Str.starts_with ("interface: " +:+ value i +:+ Str.nl) record /\
  Queue.items (output_msg_queue
                 (snd (fst (callback_of Msg message_to_csv message_to_ordereddict yaml_dump
                              i verb out msg))))
  = (Queue.items (output_msg_queue verb) ++ [record])%list /\
  if csv verb
  then record = ("interface: " +:+ value i +:+ Str.nl)
                +:+ message_to_csv msg (truncate_length verb) (no_arr verb) (no_str verb)
  else Str.ends_with "---" record /\
       exists msgdict,
         replace_event_type verb
           (message_to_ordereddict msg (truncate_length verb) (no_arr verb) (no_str verb))
         = inr msgdict /\
         record = ("interface: " +:+ value i +:+ Str.nl)
                  +:+ yaml_dump msgdict (flow_style verb) +:+ "---".
Proof.
  pose proof (callback_cases Msg message_to_csv message_to_ordereddict yaml_dump
                i verb out msg) as Hcb.
  destruct (to_print _ _ _ _ verb msg (value i)) as [e|text] eqn:Hp.
  { by rewrite Hcb. }
  destruct (Queue.full (output_msg_queue verb)); rewrite Hcb; cbn [fst snd]; [done |].
  intros H. inversion H; subst text. clear H.
  apply to_print_layout in Hp.
  destruct (csv verb).
  - subst record. split; [by eexists |]. done.
  - destruct Hp as (d & Hd & ->). split; [by eexists |]. split; [done |]. split.
    + exists (("interface: " +:+ value i +:+ Str.nl) +:+ yaml_dump d (flow_style verb)).
      symmetry. apply append_assoc.
    + by exists d.
Qed.

Lemma record_layout_csv_demo :
  let verb := self (Demo.started (Demo.args [] 100 true)) in
  let record := "interface: CANCEL_SERVICE" +:+ Str.nl +:+ "3,4" in
  Str.starts_with ("interface: " +:+ value CANCEL_SERVICE +:+ Str.nl) record /\
  record = ("interface: " +:+ value CANCEL_SERVICE +:+ Str.nl)
           +:+ Demo.message_to_csv (Demo.service_event 3 4)
                 (truncate_length verb) (no_arr verb) (no_str verb).
Proof.
  intros verb record.
  destruct (record_layout Demo.Msg Demo.message_to_csv Demo.message_to_ordereddict
              Demo.yaml_dump verb [] (Demo.service_event 3 4) CANCEL_SERVICE record)
    as (Hstart & _ & Hcsv).
  - reflexivity.
  - split; [exact Hstart | exact Hcsv].
Defined.

Example yaml_record_example :
  Demo.to_print (self (Demo.started (Demo.args [] 100 false)))
    (Demo.status_message 5) (value STATUS_TOPIC)
  = inr ("interface: STATUS_TOPIC" +:+ Str.nl +:+ "status_list: [...]" +:+ Str.nl +:+ "---").
Proof. reflexivity. Qed.

(** ** The event type *)

Lemma dict_get_has (k : string) (d : odict) (v : pyval) :
  Dict.get k d = inr v -> Dict.has k d = true.
Proof.
  induction d as [|[k' v'] d IH]; cbn; [done |].
  destruct (String.eqb k' k); [done |]. exact IH.
Qed.

Lemma init_fold_other (l : list (string * Z)) (acc : gmap Z string) (n : Z) :
  n ∉ map snd l ->
  fold_left (fun table kv => <[snd kv := fst kv]> table) l acc !! n = acc !! n.
Proof.
  revert acc. induction l as [|[k v] l IH]; intros acc Hn; cbn in *; [done |].
  apply not_elem_of_cons in Hn as [Hne Hn].
  rewrite IH by done. by rewrite lookup_insert_ne.
Qed.

(** With distinct numbers, the table of [__init__] sends the number of each
    constant to its name. *)
Lemma init_event_number_to_name_lookup (constants : list (string * Z)) (k : string) (n : Z) :
  NoDup (map snd constants) ->
  (k, n) ∈ constants ->
  init_event_number_to_name constants !! n = Some k.
Proof.
  unfold init_event_number_to_name. generalize (∅ : gmap Z string).
  induction constants as [|[k' v'] l IH]; intros acc Hnd Hin; cbn in *.
  - by apply elem_of_nil in Hin.
  - apply NoDup_cons in Hnd as [Hfresh Hnd].
    apply elem_of_cons in Hin as [Heq|Hin].
    + inversion Heq; subst. rewrite init_fold_other by done. apply lookup_insert_eq.
    + by apply IH.
Qed.

(** C10: in CSV mode the text is the header followed by [message_to_csv] of
    the message, and the table of event names is not consulted.  Otherwise
    the dictionary given to [yaml.dump] is the one [message_to_ordereddict]
    returned when it has no ['info'], or when its ['info'] mapping has no
    ['event_type']; and it differs from it only when ['info'] is a mapping
    with an ['event_type'] whose value the table maps to a name, in which
    case that name stands in place of the number and nothing else moved. *)
Theorem event_type_named_outside_csv (Msg : Type)
    (message_to_csv : Msg -> option Z -> bool -> bool -> string)
    (message_to_ordereddict : Msg -> option Z -> bool -> bool -> odict)
    (yaml_dump : odict -> bool -> string)
    (verb : EchoVerb) (msg : Msg) (interface : string) :
  let header := "interface: " +:+ interface +:+ Str.nl in
  let d := message_to_ordereddict msg (truncate_length verb) (no_arr verb) (no_str verb) in
  let text := to_print Msg message_to_csv message_to_ordereddict yaml_dump verb msg interface in
  (csv verb = true ->
   text = inr (header +:+ message_to_csv msg (truncate_length verb) (no_arr verb)
                            (no_str verb))) /\
  (csv verb = false -> Dict.has "info" d = false ->
   text = inr (header +:+ yaml_dump d (flow_style verb) +:+ "---")) /\
  (csv verb = false ->
   forall info, Dict.get "info" d = inr (PDict info) -> Dict.has "event_type" info = false ->
   text = inr (header +:+ yaml_dump d (flow_style verb) +:+ "---")) /\
  (csv verb = false ->
   forall info number name,
     Dict.get "info" d = inr (PDict info) ->
     Dict.get "event_type" info = inr number ->
     getitem_number (_event_number_to_name verb) number = inr name ->
     text = inr (header
                 +:+ yaml_dump
                       (Dict.set "info" (PDict (Dict.set "event_type" (PStr name) info)) d)
                       (flow_style verb)
                 +:+ "---")) /\
  (forall d',
     replace_event_type verb d = inr d' -> d' <> d ->
     exists info number name,
       Dict.get "info" d = inr (PDict info) /\
       Dict.get "event_type" info = inr number /\
       getitem_number (_event_number_to_name verb) number = inr name /\
       d' = Dict.set "info" (PDict (Dict.set "event_type" (PStr name) info)) d).
Proof.
  intros header d text. unfold text, to_print. fold header. fold d.
  split; [by intros -> |].
  split.
  { intros -> Hinfo. unfold replace_event_type. by rewrite Hinfo. }
  split.
  { intros -> info Hget Hno. unfold replace_event_type.
    rewrite (dict_get_has _ _ _ Hget), Hget. cbn. by rewrite Hno. }
  split.
  { intros -> info number name Hget Hnum Hname. unfold replace_event_type.
    rewrite (dict_get_has _ _ _ Hget), Hget. cbn.
    rewrite (dict_get_has _ _ _ Hnum), Hnum. cbn. by rewrite Hname. }
  intros d' Hrep Hne. unfold replace_event_type, bind in Hrep.
  destruct (Dict.has "info" d); [| by inversion Hrep].
  destruct (Dict.get "info" d) as [e|info]; [done |].
  destruct (contains_event_type info) as [e|[|]] eqn:Hc; [done | | by inversion Hrep].
  destruct (getitem_event_type info) as [e|number] eqn:Hg; [done |].
  destruct (getitem_number (_event_number_to_name verb) number) as [e|name] eqn:Hn; [done |].
  destruct info as [n|b|s|l|inner]; try done.
  cbn in Hg, Hrep. inversion Hrep; subst d'.
  by exists inner, number, name.
Qed.

Lemma event_type_named_outside_csv_demo :
  Demo.to_print (self (Demo.started (Demo.args [] 100 false)))
    (Demo.service_event 1 7) (value GOAL_SERVICE)
  = inr ("interface: GOAL_SERVICE" +:+ Str.nl
         +:+ Demo.yaml_dump
               [("info", PDict [("event_type", PStr "REQUEST_RECEIVED");
                                ("sequence_number", PInt 7)]);
                ("request", PList []); ("response", PList [])] false
         +:+ "---").
Proof.
  refine (proj1 (proj2 (proj2 (proj2
            (event_type_named_outside_csv Demo.Msg Demo.message_to_csv
               Demo.message_to_ordereddict Demo.yaml_dump
               (self (Demo.started (Demo.args [] 100 false)))
               (Demo.service_event 1 7) (value GOAL_SERVICE)))))
            _ [("event_type", PInt 1); ("sequence_number", PInt 7)]
            (PInt 1) "REQUEST_RECEIVED" _ _ _); reflexivity.
Defined.

Example event_type_kept_in_csv :
  Demo.to_print (self (Demo.started (Demo.args [] 100 true)))
    (Demo.service_event 1 7) (value GOAL_SERVICE)
  = inr ("interface: GOAL_SERVICE" +:+ Str.nl +:+ "1,7").
Proof. reflexivity. Qed.

Example event_type_table :
  init_event_number_to_name Demo.constants !! 3 = Some "RESPONSE_RECEIVED".
Proof.
  apply init_event_number_to_name_lookup.
  - compute_done.
  - compute_done.
Qed.

(** ** The end of the printer thread *)

Lemma finished_stays (n : nat) (p : Process) :
  output_msg_thread p = Finished -> Nat.iter n message_handler p = p.
Proof.
  intros Hpc. induction n as [|n IH]; [done |].
  rewrite Nat.iter_succ, IH. unfold message_handler. by rewrite Hpc.
Qed.

Lemma handler_finishes (p : Process) :
  run_thread p = false ->
  is_alive (output_msg_thread p) = true ->
  output_msg_thread (message_handler (message_handler (message_handler p))) = Finished.
Proof.
  destruct p as [verb flag pc subs spin out]. cbn. intros -> Halive.
  destruct pc; try done.
  - unfold message_handler at 3. cbn. unfold Queue.get.
    destruct (Queue.items (output_msg_queue verb)); reflexivity.
Qed.

(** C3 as stated fails: a record is queued when the stop flag is set, and
    the printer, which has just printed the record before it, finds the flag
    at its next test and finishes; the queued record is never printed. *)
Lemma printer_abandons_queued_record :
  let p0 := Demo.started (Demo.args [] 100 true) in
  let at_stop :=
    snd (Demo.run p0 [Deliver GOAL_SERVICE (Demo.service_event 0 1);
                      Deliver STATUS_TOPIC (Demo.status_message 2);
                      Handler; Handler; Handler]) in
  let after := snd (Demo.run at_stop [Interrupt; Handler]) in
  items_of at_stop = ["interface: STATUS_TOPIC" +:+ Str.nl +:+ "[...]"] /\
  run_thread (snd (Demo.step at_stop Interrupt)) = false /\
  output_msg_thread after = Finished /\
  items_of after = ["interface: STATUS_TOPIC" +:+ Str.nl +:+ "[...]"] /\
  stdout after = ["interface: GOAL_SERVICE" +:+ Str.nl +:+ "0,1"] /\
  message_handler after = after.
Proof. vm_compute. repeat split. Qed.

(** C3, amended: the printer thread finishes exactly when it finds the stop
    flag set at the test at the top of its loop, whether or not records are
    queued, and from then on, however many steps it is given, the queue and
    the output stay as they are.  When its [get] times out on an empty queue
    it goes back to that test.  When it is already inside its [get] and a
    record is queued, it takes the first record and prints it, whatever the
    stop flag says. *)
Theorem printer_loop_exit (p : Process) :
  (output_msg_thread (message_handler p) = Finished <->
   output_msg_thread p = Finished \/
   (output_msg_thread p = AtWhile /\ run_thread p = false)) /\
  (output_msg_thread p = AtWhile -> run_thread p = false ->
   forall n,
     items_of (Nat.iter n message_handler p) = items_of p /\
     stdout (Nat.iter n message_handler p) = stdout p) /\
  (output_msg_thread p = AtGet -> items_of p = [] ->
   output_msg_thread (message_handler p) = AtWhile /\
   items_of (message_handler p) = [] /\
   stdout (message_handler p) = stdout p) /\
  (output_msg_thread p = AtGet ->
   forall r rest, items_of p = (r :: rest)%list ->
   output_msg_thread (message_handler p) = AtPrint r /\
   items_of (message_handler (message_handler p)) = rest /\
   stdout (message_handler (message_handler p)) = (stdout p ++ [r])%list /\
   output_msg_thread (message_handler (message_handler p)) = AtWhile).
Proof.
  destruct p as [verb flag pc subs spin out].
  unfold items_of, queue_of. cbn [output_msg_thread run_thread self stdout].
  split; [| split; [| split]].
  - unfold message_handler, Queue.get. cbn.
    destruct pc; cbn; try (split; [done | intros [|[]]; done]).
    + destruct flag; cbn; split; try done; [intros [|[]]; done | by right].
    + destruct (Queue.items (output_msg_queue verb)); cbn;
        (split; [done | intros [|[]]; done]).
    + split; [by left | done].
  - intros -> -> [|n]; [done |].
    rewrite Nat.iter_succ_r. by rewrite finished_stays.
  - intros -> Hitems. unfold message_handler, Queue.get. cbn. by rewrite Hitems.
  - intros -> r rest Hitems. unfold message_handler, Queue.get. cbn.
    rewrite Hitems. cbn. done.
Qed.

Lemma printer_loop_exit_inside_get :
  let p :=
    snd (Demo.run (Demo.started (Demo.args [] 100 true))
           [Deliver GOAL_SERVICE (Demo.service_event 0 1); Handler; Interrupt]) in
  run_thread p = false /\
  output_msg_thread (message_handler p)
  = AtPrint ("interface: GOAL_SERVICE" +:+ Str.nl +:+ "0,1") /\
  items_of (message_handler (message_handler p)) = [] /\
  stdout (message_handler (message_handler p))
  = (stdout p ++ ["interface: GOAL_SERVICE" +:+ Str.nl +:+ "0,1"])%list /\
  output_msg_thread (message_handler (message_handler p)) = AtWhile.
Proof.
  intros p. split; [reflexivity |].
  apply (proj2 (proj2 (proj2 (printer_loop_exit p)))); reflexivity.
Defined.

(** ** Shutting down *)

(** C8: when the loop of [main] ends, [main] removes the node, destroys each
    of the subscriptions it created, only then clears the flag the printer
    tests, and joins the printer thread with a timeout of 1.  From then on no
    callback runs, so nothing is put; the printer gets at most one more
    record, the one it was already waiting for; it finishes within three of
    its steps; and every other record stays in the queue, unprinted. *)
Theorem shutdown_order (Msg : Type)
    (message_to_csv : Msg -> option Z -> bool -> bool -> string)
    (message_to_ordereddict : Msg -> option Z -> bool -> bool -> odict)
    (yaml_dump : odict -> bool -> string)
    (constants : list (string * Z)) (ActionModule : Type)
    (get_action_class get_action : string -> exn + option ActionModule)
    (args : Args.t) (log0 : list effect) (p0 : Process) (events : list (event Msg)) :
  main_start constants ActionModule get_action_class get_action args = (log0, inr p0) ->
  let p := snd (run Msg message_to_csv message_to_ordereddict yaml_dump p0 events) in
  spinning p = true ->
  let log := fst (main_finish p) in
  let p' := snd (main_finish p) in
  step Msg message_to_csv message_to_ordereddict yaml_dump p Interrupt = (ShutDown log, p') /\
  subscriptions p = subscriptions p0 /\
  log = ([NodeRemoved] ++ map SubscriptionDestroyed (subscriptions p)
           ++ [StopFlagSet; ThreadJoined 1])%list /\
  subscriptions p' = [] /\
  run_thread p' = false /\
  items_of p' = items_of p /\
  stdout p' = stdout p /\
  (forall later,
     let os := fst (run Msg message_to_csv message_to_ordereddict yaml_dump p' later) in
     let p'' := snd (run Msg message_to_csv message_to_ordereddict yaml_dump p' later) in
     pushed os = [] /\
     dropped os = [] /\
     (length (popped os) <= 1)%nat /\
     items_of p' = (popped os ++ items_of p'')%list) /\
  output_msg_thread (message_handler (message_handler (message_handler p'))) = Finished.
Proof.
  intros Hstart p Hspin log p'.
  apply main_start_running in Hstart as (_ & _ & _ & Hrun0 & Hpc0 & _).
  destruct (run_spinning Msg message_to_csv message_to_ordereddict yaml_dump events p0 Hspin)
    as (_ & Hsubs & Hrun & Halive).
  fold p in Hsubs, Hrun, Halive.
  rewrite Hpc0 in Halive. specialize (Halive eq_refl Hrun0).
  assert (log = ([NodeRemoved] ++ map SubscriptionDestroyed (subscriptions p)
                   ++ [StopFlagSet; ThreadJoined 1])%list) as Hlog.
  { unfold log, main_finish. cbn [fst]. by rewrite Halive. }
  split.
  { cbn [step]. rewrite Hspin. unfold log, p', main_finish. done. }
  split; [done |]. split; [done |].
  unfold p', main_finish. cbn [snd].
  repeat (split; [done |]).
  split.
  - intros later.
    set (q := mkProcess (self p) false (output_msg_thread p) [] false (stdout p)) in *.
    set (os := fst (run Msg message_to_csv message_to_ordereddict yaml_dump q later)).
    set (p'' := snd (run Msg message_to_csv message_to_ordereddict yaml_dump q later)).
    destruct (run_stopped Msg message_to_csv message_to_ordereddict yaml_dump later q
                eq_refl eq_refl) as (Hpush & Hdrop & Hpop).
    fold os p'' in Hpush, Hdrop, Hpop.
    pose proof (run_fifo Msg message_to_csv message_to_ordereddict yaml_dump later q)
      as Hfifo.
    fold os p'' in Hfifo. rewrite Hpush, app_nil_r in Hfifo.
    repeat (split; [done |]). split; [| done].
    assert (gets_left q <= 1)%nat by (unfold gets_left; destruct (output_msg_thread q); lia).
    lia.
  - by apply handler_finishes.
Qed.

Lemma shutdown_order_demo :
  let events :=
    [Deliver GOAL_SERVICE (Demo.service_event 0 1);
     Deliver FEEDBACK_TOPIC (Demo.status_message 2);
     Deliver FEEDBACK_TOPIC (Demo.status_message 3);
     Handler; Handler] in
  let p := snd (Demo.run (Demo.started (Demo.args ["goal_service"; "feedback_topic"] 100 true))
                  events) in
  let log := fst (main_finish p) in
  let p' := snd (main_finish p) in
  log = [NodeRemoved;
         SubscriptionDestroyed (subscription_of "/fibonacci" GOAL_SERVICE);
         SubscriptionDestroyed (subscription_of "/fibonacci" FEEDBACK_TOPIC);
         StopFlagSet; ThreadJoined 1] /\
  items_of p' = ["interface: FEEDBACK_TOPIC" +:+ Str.nl +:+ "[...]";
                 "interface: FEEDBACK_TOPIC" +:+ Str.nl +:+ "[...]"] /\
  Demo.step p Interrupt = (ShutDown log, p').
Proof.
  intros events p log p'.
  destruct (shutdown_order
              Demo.Msg Demo.message_to_csv Demo.message_to_ordereddict Demo.yaml_dump
              Demo.constants Demo.ActionModule Demo.get_action_class Demo.get_action
              (Demo.args ["goal_service"; "feedback_topic"] 100 true)
              (fst (Demo.main_start (Demo.args ["goal_service"; "feedback_topic"] 100 true)))
              (Demo.started (Demo.args ["goal_service"; "feedback_topic"] 100 true))
              events)
    as (Hstep & _ & Hlog & _).
  - reflexivity.
  - reflexivity.
  - split; [exact Hlog |]. split; [reflexivity | exact Hstep].
Defined.

(** ** Configuration errors *)

(** The only queue [main] creates has the size given in [args]. *)
Lemma main_start_queue_created (constants : list (string * Z)) (ActionModule : Type)
    (get_action_class get_action : string -> exn + option ActionModule)
    (args : Args.t) (n : Z) :
  QueueCreated n ∈ fst (main_start constants ActionModule get_action_class get_action args) ->
  n = Args.queue_size args.
Proof.
  destruct (main_start constants ActionModule get_action_class get_action args)
    as [log [e|p]] eqn:Hstart; cbn [fst].
  - unfold main_start, load_action_module in Hstart.
    destruct (check_interfaces (Args.interfaces args)).
    { inversion Hstart; subst. by intros ?%elem_of_nil. }
    destruct (Args.action_type args) as [ty|].
    + destruct (get_action ty) as [e'|[m|]]; cbn in Hstart;
        try destruct (caught e'); inversion Hstart; subst; by intros ?%elem_of_nil.
    + destruct (get_action_class (Args.action_name args)) as [e'|[m|]]; cbn in Hstart;
        try destruct (caught e'); inversion Hstart; subst;
        rewrite elem_of_cons, elem_of_nil; by intros [|].
  - apply main_start_running in Hstart
      as (_ & _ & _ & _ & _ & _ & _ & _ & log0 & Hlog0 & ->).
    rewrite !elem_of_app, list_elem_of_fmap, !elem_of_cons, elem_of_nil.
    destruct Hlog0 as [-> | ->]; rewrite ?elem_of_cons, elem_of_nil;
      intros H; repeat (destruct H as [H|H]);
      try discriminate H; try (by inversion H); by destruct H as (s & Hs & _).
Qed.

(** C4: with the [type=] of the two numeric options as the spec describes
    it, a queue size or a truncate length that is not positive makes the
    parser refuse the command line with a non-zero status before [main]
    runs, so that nothing is created; and whenever a queue is created, its
    size is positive, 100 when the option is not given. *)
Theorem non_positive_sizes_rejected (constants : list (string * Z))
    (ActionModule : Type)
    (get_action_class get_action : string -> exn + option ActionModule)
    (cl : Cli.t) :
  ((exists n, n <= 0 /\ (Cli.queue_size cl = Some n \/ Cli.truncate_length cl = Some n)) ->
   exists err,
     command constants ActionModule get_action_class get_action cl
     = ([], Rejected err configuration_error_status) /\
     configuration_error_status <> 0) /\
  (forall n,
     QueueCreated n ∈ fst (command constants ActionModule get_action_class get_action cl) ->
     0 < n /\ (Cli.queue_size cl = None -> n = 100)).
Proof.
  unfold command. split.
  - unfold parse_args, unsigned_int. intros (n & Hn & [Hq|Hl]).
    + rewrite Hq. destruct (Z.ltb_spec 0 n); [lia |]. cbn. by eexists.
    + rewrite Hl. destruct (Z.ltb_spec 0 n); [lia |].
      destruct (Cli.queue_size cl) as [q|]; [destruct (0 <? q) |]; cbn; by eexists.
  - intros n.
    destruct (parse_args cl) as [err|args] eqn:Hparse; cbn [fst].
    { by intros ?%elem_of_nil. }
    pose proof (main_start_queue_created constants ActionModule get_action_class
                  get_action args n) as Hmain.
    destruct (main_start constants ActionModule get_action_class get_action args)
      as [log r]. cbn [fst] in *. intros Hin. specialize (Hmain Hin). subst n.
    split.
    + unfold parse_args, unsigned_int in Hparse.
      destruct (Cli.queue_size cl) as [q|]; cbn in Hparse.
      * destruct (Z.ltb_spec 0 q); cbn in Hparse; [| done].
        destruct (Cli.truncate_length cl) as [l|]; [destruct (0 <? l) |]; cbn in Hparse;
          inversion Hparse; subst; done.
      * destruct (Cli.truncate_length cl) as [l|]; [destruct (0 <? l) |]; cbn in Hparse;
          inversion Hparse; subst; done.
    + intros Hnone. by eapply parse_args_default_queue_size.
Qed.

Lemma non_positive_sizes_rejected_zero :
  exists err,
    Demo.command (Demo.cli (Some 0) None) = ([], Rejected err configuration_error_status) /\
    configuration_error_status <> 0.
Proof.
  apply (proj1 (non_positive_sizes_rejected
                  Demo.constants Demo.ActionModule Demo.get_action_class Demo.get_action
                  (Demo.cli (Some 0) None))).
  exists 0. split; [lia | left; reflexivity].
Defined.

Example default_queue_size_created :
  head (fst (Demo.command (Demo.cli None None))) = Some (QueueCreated 100).
Proof. reflexivity. Qed.

(** * Further properties of the code *)

(** ** The table of event names built by [__init__] *)

Lemma init_fold_some (l : list (string * Z)) (acc : gmap Z string) (n : Z) (k : string) :
  fold_left (fun table kv => <[snd kv := fst kv]> table) l acc !! n = Some k ->
  (k, n) ∈ l \/ acc !! n = Some k.
Proof.
  revert acc. induction l as [|[k' v'] l IH]; intros acc H; cbn in *; [by right |].
  destruct (IH _ H) as [Hin | Hacc].
  - left. by apply elem_of_cons; right.
  - destruct (decide (v' = n)) as [-> | Hne].
    + rewrite lookup_insert_eq in Hacc. inversion Hacc; subst. left. apply elem_of_cons. by left.
    + rewrite lookup_insert_ne in Hacc by done. by right.
Qed.

(** X1: when the constants have distinct numbers, the table of [__init__] is
    the inverse of the constants: it maps a number to a name exactly when
    that name is declared with that number.  A number that no constant has
    is absent from the table. *)
Theorem event_table_inverts_constants (constants : list (string * Z)) :
  NoDup (map snd constants) ->
  forall k n, init_event_number_to_name constants !! n = Some k <-> (k, n) ∈ constants.
Proof.
  intros Hnd k n. split.
  - intros H. apply init_fold_some in H as [Hin | Hempty]; [done |].
    by rewrite lookup_empty in Hempty.
  - by apply init_event_number_to_name_lookup.
Qed.

Lemma event_table_inverts_constants_service_events :
  init_event_number_to_name Demo.constants !! 2 = Some "RESPONSE_SENT"
  <-> ("RESPONSE_SENT", 2) ∈ Demo.constants.
Proof.
  apply (event_table_inverts_constants Demo.constants). compute_done.
Defined.

(** X2: when several constants share a number, the table keeps the name of
    the one declared last. *)
Theorem event_table_last_name_wins (before after : list (string * Z)) (k : string) (n : Z) :
  n ∉ map snd after ->
  init_event_number_to_name (before ++ (k, n) :: after) !! n = Some k.
Proof.
  intros Hfresh. unfold init_event_number_to_name.
  rewrite fold_left_app. cbn. rewrite init_fold_other by done. apply lookup_insert_eq.
Qed.

Lemma event_table_last_name_wins_alias :
  init_event_number_to_name ([("REQUEST_SENT", 0); ("FIRST", 1)] ++ ("SECOND", 1) :: [("LAST", 3)])
    !! 1 = Some "SECOND".
Proof.
  apply (event_table_last_name_wins [("REQUEST_SENT", 0); ("FIRST", 1)] [("LAST", 3)]
           "SECOND" 1).
  compute_done.
Defined.

(** ** Exceptions out of a callback *)

(** X3: outside CSV mode, a message whose ['info'] mapping carries an event
    type that is an integer absent from the table of names makes the
    callback raise [KeyError]; nothing is queued and nothing is printed. *)
Theorem unknown_event_type_raises (Msg : Type)
    (message_to_csv : Msg -> option Z -> bool -> bool -> string)
    (message_to_ordereddict : Msg -> option Z -> bool -> bool -> odict)
    (yaml_dump : odict -> bool -> string)
    (verb : EchoVerb) (out : list string) (msg : Msg) (i : ActionInterfaces)
    (info : odict) (n : Z) :
  csv verb = false ->
  Dict.get "info"
    (message_to_ordereddict msg (truncate_length verb) (no_arr verb) (no_str verb))
  = inr (PDict info) ->
  Dict.get "event_type" info = inr (PInt n) ->
  _event_number_to_name verb !! n = None ->
  callback_of Msg message_to_csv message_to_ordereddict yaml_dump i verb out msg
  = (Propagated KeyError, verb, out).
Proof.
  intros Hcsv Hinfo Hnum Hnone.
  pose proof (callback_cases Msg message_to_csv message_to_ordereddict yaml_dump
                i verb out msg) as Hcb.
  unfold to_print, replace_event_type in Hcb.
  rewrite Hcsv, (dict_get_has _ _ _ Hinfo), Hinfo in Hcb. cbn in Hcb.
  rewrite (dict_get_has _ _ _ Hnum), Hnum in Hcb. cbn in Hcb.
  by rewrite Hnone in Hcb.
Qed.

Lemma unknown_event_type_raises_seven :
  callback_of Demo.Msg Demo.message_to_csv Demo.message_to_ordereddict Demo.yaml_dump
    GOAL_SERVICE (self (Demo.started (Demo.args [] 100 false))) []
    (Demo.service_event 7 1)
  = (Propagated KeyError, self (Demo.started (Demo.args [] 100 false)), []).
Proof.
  apply (unknown_event_type_raises
           Demo.Msg Demo.message_to_csv Demo.message_to_ordereddict Demo.yaml_dump
           (self (Demo.started (Demo.args [] 100 false))) []
           (Demo.service_event 7 1) GOAL_SERVICE
           [("event_type", PInt 7); ("sequence_number", PInt 1)] 7);
    reflexivity.
Defined.

(** X4: the flag the printer tests is cleared only by the shutdown sequence
    of [main].  Once a callback's exception has come out of [spin_once],
    [main] has left its loop without that sequence: in every later schedule
    no callback runs, the flag is still set, and the printer thread is still
    alive.  The exception itself changed neither the queue nor the output. *)
Theorem callback_exception_leaves_printer_running (Msg : Type)
    (message_to_csv : Msg -> option Z -> bool -> bool -> string)
    (message_to_ordereddict : Msg -> option Z -> bool -> bool -> odict)
    (yaml_dump : odict -> bool -> string)
    (p : Process) (i : ActionInterfaces) (msg : Msg) (e : exn)
    (later : list (event Msg)) :
  run_thread p = true ->
  is_alive (output_msg_thread p) = true ->
  fst (step Msg message_to_csv message_to_ordereddict yaml_dump p (Deliver i msg))
  = Called i (Propagated e) ->
  let p1 := snd (step Msg message_to_csv message_to_ordereddict yaml_dump p (Deliver i msg)) in
  let p2 := snd (run Msg message_to_csv message_to_ordereddict yaml_dump p1 later) in
  stream_events (fst (run Msg message_to_csv message_to_ordereddict yaml_dump p1 later)) = [] /\
  spinning p2 = false /\
  run_thread p2 = true /\
  is_alive (output_msg_thread p2) = true /\
  items_of p1 = items_of p /\
  stdout p1 = stdout p.
Proof.
  intros Hrun Halive Hobs p1 p2.
  assert (spinning p1 = false /\ run_thread p1 = true /\
          output_msg_thread p1 = output_msg_thread p /\
          items_of p1 = items_of p /\ stdout p1 = stdout p) as (H1 & H2 & H3 & H4 & H5).
  { unfold p1. revert Hobs. cbn [step].
    destruct (spinning p && subscribed p i); [| done].
    pose proof (callback_cases Msg message_to_csv message_to_ordereddict yaml_dump
                  i (self p) (stdout p) msg) as Hcb.
    destruct (to_print _ _ _ _ (self p) msg (value i)).
    - rewrite Hcb. by cbn.
    - destruct (Queue.full (output_msg_queue (self p))); by rewrite Hcb. }
  destruct (run_left_running Msg message_to_csv message_to_ordereddict yaml_dump
              later p1 H1 H2) as (R1 & R2 & R3 & R4); [by rewrite H3 |].
  done.
Qed.

Lemma callback_exception_leaves_printer_running_demo :
  let p := Demo.started (Demo.args [] 100 false) in
  let p1 := snd (Demo.step p (Deliver GOAL_SERVICE (Demo.service_event 7 1))) in
  let later := [Handler; Interrupt; Handler; Deliver STATUS_TOPIC (Demo.status_message 1);
                Handler; Handler] in
  let p2 := snd (Demo.run p1 later) in
  stream_events (fst (Demo.run p1 later)) = [] /\
  spinning p2 = false /\
  run_thread p2 = true /\
  is_alive (output_msg_thread p2) = true /\
  items_of p1 = items_of p /\
  stdout p1 = stdout p.
Proof.
  intros p p1 later p2.
  apply (callback_exception_leaves_printer_running
           Demo.Msg Demo.message_to_csv Demo.message_to_ordereddict Demo.yaml_dump
           p GOAL_SERVICE (Demo.service_event 7 1) KeyError later); reflexivity.
Defined.

(** X5: in CSV mode the table of event names is never read, so no message
    can make a callback raise: as long as the loop is not interrupted,
    [main] stays in it, whatever is delivered. *)
Theorem csv_mode_never_leaves_the_loop (Msg : Type)
    (message_to_csv : Msg -> option Z -> bool -> bool -> string)
    (message_to_ordereddict : Msg -> option Z -> bool -> bool -> odict)
    (yaml_dump : odict -> bool -> string)
    (constants : list (string * Z)) (ActionModule : Type)
    (get_action_class get_action : string -> exn + option ActionModule)
    (args : Args.t) (log : list effect) (p0 : Process) (events : list (event Msg)) :
  main_start constants ActionModule get_action_class get_action args = (log, inr p0) ->
  Args.csv args = true ->
  Forall (fun e => e <> Interrupt) events ->
  spinning (snd (run Msg message_to_csv message_to_ordereddict yaml_dump p0 events)) = true.
Proof.
  intros Hstart Hcsv Hev.
  apply main_start_running in Hstart as (_ & _ & Hcsv0 & _ & _ & Hspin & _).
  rewrite <- Hcsv0 in Hcsv. clear Hcsv0.
  revert p0 Hcsv Hspin. induction Hev as [|e events He _ IH]; intros p0 Hcsv Hspin; [done |].
  rewrite run_cons. cbn [snd].
  destruct (step_csv Msg message_to_csv message_to_ordereddict yaml_dump p0 e Hcsv Hspin He)
    as [S1 S2].
  by apply IH.
Qed.

Lemma csv_mode_never_leaves_the_loop_demo :
  spinning (snd (Demo.run (Demo.started (Demo.args [] 100 true))
                   [Deliver GOAL_SERVICE (Demo.service_event 7 1); Handler;
                    Deliver STATUS_TOPIC (Demo.status_message 1)])) = true.
Proof.
  apply (csv_mode_never_leaves_the_loop
           Demo.Msg Demo.message_to_csv Demo.message_to_ordereddict Demo.yaml_dump
           Demo.constants Demo.ActionModule Demo.get_action_class Demo.get_action
           (Demo.args [] 100 true) (fst (Demo.main_start (Demo.args [] 100 true)))).
  - reflexivity.
  - reflexivity.
  - repeat constructor; discriminate.
Defined.

(** ** What reaches standard output *)

Lemma lines_of_elem (os : list obs) (line : string) :
  line ∈ lines_of os -> line = queue_full_warning \/ line ∈ printed os.
Proof.
  unfold lines_of, printed. induction os as [|o os IH]; cbn.
  - by intros ?%elem_of_nil.
  - rewrite elem_of_app. intros [Hin | Hin].
    + destruct o as [i [r|r|e]| | | | |r| |]; try (by apply elem_of_nil in Hin).
      * left. by apply list_elem_of_singleton in Hin.
      * right. cbn. apply list_elem_of_singleton in Hin. subst. by left.
    + destruct (IH Hin) as [-> | Hp]; [by left |]. right.
      destruct o as [i [r|r|e]| | | | |r| |]; cbn; try done. by right.
Qed.

Lemma lines_of_length (os : list obs) :
  length (lines_of os) = (length (printed os) + length (dropped os))%nat.
Proof.
  unfold lines_of, printed, dropped. induction os as [|o os IH]; [done |].
  cbn. rewrite length_app, IH.
  destruct o as [i [r|r|e]| | | | |r| |]; cbn; lia.
Qed.

(** X6: standard output holds nothing but records that a callback rendered
    and put in the queue, written by the printer, and the warning, written
    once for each dropped record.  A callback never prints a record. *)
Theorem output_is_records_and_warnings (Msg : Type)
    (message_to_csv : Msg -> option Z -> bool -> bool -> string)
    (message_to_ordereddict : Msg -> option Z -> bool -> bool -> odict)
    (yaml_dump : odict -> bool -> string)
    (constants : list (string * Z)) (ActionModule : Type)
    (get_action_class get_action : string -> exn + option ActionModule)
    (args : Args.t) (log : list effect) (p0 : Process) (events : list (event Msg)) :
  main_start constants ActionModule get_action_class get_action args = (log, inr p0) ->
  let os := fst (run Msg message_to_csv message_to_ordereddict yaml_dump p0 events) in
  let p := snd (run Msg message_to_csv message_to_ordereddict yaml_dump p0 events) in
  (forall line, line ∈ stdout p -> line = queue_full_warning \/ line ∈ pushed os) /\
  length (stdout p) = (length (printed os) + length (dropped os))%nat.
Proof.
  intros Hstart os p.
  apply main_start_running in Hstart as (_ & Hq & _ & _ & Hpc & _ & Hout & _).
  pose proof (run_stdout Msg message_to_csv message_to_ordereddict yaml_dump events p0) as Hlines.
  pose proof (run_fifo Msg message_to_csv message_to_ordereddict yaml_dump events p0) as Hfifo.
  pose proof (run_in_flight Msg message_to_csv message_to_ordereddict yaml_dump events p0)
    as Hprint.
  fold os p in Hlines, Hfifo, Hprint.
  rewrite Hout in Hlines. cbn in Hlines.
  unfold items_of in Hfifo at 1. rewrite Hq in Hfifo. cbn in Hfifo.
  unfold in_flight in Hprint at 1. rewrite Hpc in Hprint. cbn in Hprint.
  rewrite Hlines. split.
  - intros line Hin. apply lines_of_elem in Hin as [-> | Hin]; [by left |]. right.
    rewrite Hfifo, Hprint, !elem_of_app. by left; left.
  - apply lines_of_length.
Qed.

Lemma output_is_records_and_warnings_demo :
  let events :=
    [Deliver GOAL_SERVICE (Demo.service_event 0 1);
     Deliver STATUS_TOPIC (Demo.status_message 2);
     Handler; Handler; Handler] in
  let os := fst (Demo.run (Demo.started (Demo.args [] 1 true)) events) in
  let p := snd (Demo.run (Demo.started (Demo.args [] 1 true)) events) in
  (forall line, line ∈ stdout p -> line = queue_full_warning \/ line ∈ pushed os) /\
  length (stdout p) = (length (printed os) + length (dropped os))%nat.
Proof.
  apply (output_is_records_and_warnings
           Demo.Msg Demo.message_to_csv Demo.message_to_ordereddict Demo.yaml_dump
           Demo.constants Demo.ActionModule Demo.get_action_class Demo.get_action
           (Demo.args [] 1 true) (fst (Demo.main_start (Demo.args [] 1 true)))).
  reflexivity.
Defined.

(** ** A queue without a bound *)

(** X8: [main] hands [args.queue_size] to [queue.Queue] as it is.  With a
    size that is not positive the queue has no bound: no record is ever
    dropped, no warning is printed, and every record put is either got or
    still queued. *)
Theorem non_positive_queue_size_never_drops (Msg : Type)
    (message_to_csv : Msg -> option Z -> bool -> bool -> string)
    (message_to_ordereddict : Msg -> option Z -> bool -> bool -> odict)
    (yaml_dump : odict -> bool -> string)
    (constants : list (string * Z)) (ActionModule : Type)
    (get_action_class get_action : string -> exn + option ActionModule)
    (args : Args.t) (log : list effect) (p0 : Process) (events : list (event Msg)) :
  main_start constants ActionModule get_action_class get_action args = (log, inr p0) ->
  Args.queue_size args <= 0 ->
  let os := fst (run Msg message_to_csv message_to_ordereddict yaml_dump p0 events) in
  let p := snd (run Msg message_to_csv message_to_ordereddict yaml_dump p0 events) in
  dropped os = [] /\
  stdout p = printed os /\
  pushed os = (popped os ++ items_of p)%list.
Proof.
  intros Hstart Hsize os p.
  apply main_start_running in Hstart as (_ & Hq & _ & _ & _ & _ & Hout & _).
  assert (dropped os = []) as Hdrop.
  { apply run_unbounded. by rewrite Hq. }
  split; [done |]. split.
  - pose proof (run_stdout Msg message_to_csv message_to_ordereddict yaml_dump events p0) as H.
    fold os p in H. rewrite Hout in H. cbn in H. rewrite H.
    clear H. revert Hdrop. unfold lines_of, printed, dropped.
    induction os as [|o os IH]; [done |]. cbn.
    destruct o as [i [r|r|e]| | | | |r| |]; cbn; try done.
    intros Hd. by rewrite IH.
  - pose proof (run_fifo Msg message_to_csv message_to_ordereddict yaml_dump events p0) as H.
    fold os p in H. unfold items_of in H at 1. by rewrite Hq in H.
Qed.

Lemma non_positive_queue_size_never_drops_zero :
  let events :=
    [Deliver GOAL_SERVICE (Demo.service_event 0 1);
     Deliver STATUS_TOPIC (Demo.status_message 2);
     Deliver STATUS_TOPIC (Demo.status_message 3);
     Handler; Handler; Handler] in
  let os := fst (Demo.run (Demo.started (Demo.args [] 0 true)) events) in
  let p := snd (Demo.run (Demo.started (Demo.args [] 0 true)) events) in
  dropped os = [] /\
  stdout p = printed os /\
  pushed os = (popped os ++ items_of p)%list.
Proof.
  apply (non_positive_queue_size_never_drops
           Demo.Msg Demo.message_to_csv Demo.message_to_ordereddict Demo.yaml_dump
           Demo.constants Demo.ActionModule Demo.get_action_class Demo.get_action
           (Demo.args [] 0 true) (fst (Demo.main_start (Demo.args [] 0 true)))).
  - reflexivity.
  - cbn. lia.
Defined.

(** ** The subscriptions [main] creates *)

Lemma stream_subscription_of (name : string) (i : ActionInterfaces) :
  stream (subscription_of name i) = i.
Proof. by destruct i. Qed.

Lemma streams_of_subscriptions (name : string) (l : list ActionInterfaces) :
  map stream (map (subscription_of name) l) = l.
Proof.
  induction l as [|i l IH]; [done |].
  cbn [map]. by rewrite stream_subscription_of, IH.
Qed.

Lemma all_interfaces_complete (i : ActionInterfaces) : i ∈ all_interfaces.
Proof. destruct i; compute_done. Qed.

Lemma selected_true (interfaces : list string) (i : ActionInterfaces) :
  selected interfaces i = true <->
  interfaces = [] \/ Str.lower (value i) ∈ interfaces.
Proof.
  unfold selected. destruct interfaces as [|n rest].
  - split; [by left | done].
  - rewrite mem_true. split; [by right |]. by intros [|].
Qed.

Lemma subscribed_elem (p : Process) (i : ActionInterfaces) :
  subscribed p i = true <-> i ∈ map stream (subscriptions p).
Proof.
  unfold subscribed. rewrite existsb_exists, list_elem_of_fmap. split.
  - intros (s & Hin & Hs). apply bool_decide_eq_true in Hs.
    exists s. split; [done | by apply list_elem_of_In].
  - intros (s & Hs & Hin). exists s. split; [by apply list_elem_of_In |].
    by apply bool_decide_eq_true.
Qed.

(** X9: when [main] reaches its loop it has one subscription for each
    stream the request selects and no other, in the order of the
    enumeration, never two for one stream even when a name is given twice.
    A stream is selected when no name is requested or when its lower-case
    name is among the requested ones; every requested name has its
    subscription, so there is always at least one. *)
Theorem subscriptions_follow_request (constants : list (string * Z))
    (ActionModule : Type)
    (get_action_class get_action : string -> exn + option ActionModule)
    (args : Args.t) (log : list effect) (p0 : Process) :
  main_start constants ActionModule get_action_class get_action args = (log, inr p0) ->
  map stream (subscriptions p0)
  = filter (fun i => selected (Args.interfaces args) i = true) all_interfaces /\
  NoDup (map stream (subscriptions p0)) /\
  (forall i, subscribed p0 i = true <->
             Args.interfaces args = [] \/ Str.lower (value i) ∈ Args.interfaces args) /\
  (forall name, name ∈ Args.interfaces args ->
                exists i, Str.lower (value i) = name /\ subscribed p0 i = true) /\
  subscriptions p0 <> [].
Proof.
  intros Hstart.
  apply main_start_running in Hstart as (Hcheck & _ & _ & _ & _ & _ & _ & Hsubs & _).
  assert (map stream (subscriptions p0)
          = filter (fun i => selected (Args.interfaces args) i = true) all_interfaces)
    as Hstreams.
  { rewrite Hsubs. apply streams_of_subscriptions. }
  assert (forall i, subscribed p0 i = true <->
                    Args.interfaces args = [] \/ Str.lower (value i) ∈ Args.interfaces args)
    as Hiff.
  { intros i. rewrite subscribed_elem, Hstreams, list_elem_of_filter.
    rewrite <- selected_true. split; [by intros [H _] |].
    intros H. split; [done | apply all_interfaces_complete]. }
  assert (forall name, name ∈ Args.interfaces args ->
                       exists i, Str.lower (value i) = name /\ subscribed p0 i = true)
    as Hreq.
  { intros name Hin. apply check_interfaces_none in Hcheck.
    rewrite Forall_forall in Hcheck. specialize (Hcheck name Hin).
    unfold lowercase_names in Hcheck. rewrite !elem_of_cons, elem_of_nil in Hcheck.
    destruct Hcheck as [->|[->|[->|[->|[->|[]]]]]];
      [exists GOAL_SERVICE | exists CANCEL_SERVICE | exists RESULT_SERVICE
      | exists FEEDBACK_TOPIC | exists STATUS_TOPIC];
      (split; [reflexivity | apply Hiff; by right]). }
  split; [done |]. split.
  { rewrite Hstreams. apply NoDup_filter. compute_done. }
  split; [done |]. split; [done |].
  intros Hnil.
  destruct (Args.interfaces args) as [|name rest] eqn:Hreqs.
  - assert (subscribed p0 GOAL_SERVICE = true) as H by (apply Hiff; by left).
    apply subscribed_elem in H. rewrite Hnil in H. by apply elem_of_nil in H.
  - destruct (Hreq name) as (i & _ & H); [by left |].
    apply subscribed_elem in H. rewrite Hnil in H. by apply elem_of_nil in H.
Qed.

Lemma subscriptions_follow_request_twice :
  map stream (subscriptions (Demo.started
                               (Demo.args ["status_topic"; "goal_service"; "status_topic"]
                                  100 false)))
  = [GOAL_SERVICE; STATUS_TOPIC].
Proof.
  rewrite (proj1 (subscriptions_follow_request
                    Demo.constants Demo.ActionModule Demo.get_action_class Demo.get_action
                    (Demo.args ["status_topic"; "goal_service"; "status_topic"] 100 false)
                    (fst (Demo.main_start
                            (Demo.args ["status_topic"; "goal_service"; "status_topic"]
                               100 false)))
                    (Demo.started
                       (Demo.args ["status_topic"; "goal_service"; "status_topic"]
                          100 false))
                    eq_refl)).
  reflexivity.
Defined.

(** X10: the five streams of an action are read from five different topics,
    all under the action's name followed by [/_action/]. *)
Theorem topics_are_distinct (action_name : string) (i j : ActionInterfaces) :
  i <> j ->
  topic (subscription_of action_name i) <> topic (subscription_of action_name j) /\
  Str.starts_with (action_name +:+ "/_action/") (topic (subscription_of action_name i)).
Proof.
  intros Hne. split.
  - intros Heq. apply Hne.
    destruct i, j; try done; cbn in Heq; apply String.app_inj in Heq; discriminate Heq.
  - unfold Str.starts_with. destruct i; cbn [topic subscription_of];
      [exists "send_goal/_service_event" | exists "cancel_goal/_service_event"
      | exists "get_result/_service_event" | exists "feedback" | exists "status"];
      rewrite append_assoc; reflexivity.
Qed.

Lemma topics_are_distinct_goal_result :
  topic (subscription_of "/fibonacci" GOAL_SERVICE)
  <> topic (subscription_of "/fibonacci" RESULT_SERVICE) /\
  Str.starts_with ("/fibonacci" +:+ "/_action/") (topic (subscription_of "/fibonacci" GOAL_SERVICE)).
Proof.
  apply (topics_are_distinct "/fibonacci" GOAL_SERVICE RESULT_SERVICE). discriminate.
Defined.

(** ** Failing to find the action's type *)



(** ** The printer while the flag is set *)

Lemma handler_prints_one (p : Process) (r : string) (rest : list string) :
  run_thread p = true ->
  output_msg_thread p = AtWhile ->
  items_of p = (r :: rest)%list ->
  let p' := Nat.iter 3 message_handler p in
  run_thread p' = true /\
  output_msg_thread p' = AtWhile /\
  items_of p' = rest /\
  stdout p' = (stdout p ++ [r])%list.
Proof.
  destruct p as [verb flag pc subs spin out]. unfold items_of, queue_of.
  cbn [run_thread output_msg_thread self stdout]. intros -> -> Hitems.
  cbn [Nat.iter nat_rect]. unfold message_handler at 3. cbn.
  unfold message_handler at 2. cbn. unfold Queue.get. rewrite Hitems. cbn. done.
Qed.

(** X12: while the stop flag is not set, the printer loses nothing: starting
    at the top of its loop with n records queued, three steps for each
    record (test, get, print) write all n records to standard output in
    queue order and leave the queue empty. *)
Theorem printer_drains_queue (p : Process) :
  run_thread p = true ->
  output_msg_thread p = AtWhile ->
  let p' := Nat.iter (3 * length (items_of p)) message_handler p in
  stdout p' = (stdout p ++ items_of p)%list /\
  items_of p' = [] /\
  output_msg_thread p' = AtWhile /\
  run_thread p' = true.
Proof.
  remember (items_of p) as its eqn:Hits. revert p Hits.
  induction its as [|r rest IH]; intros p Hits Hrun Hpc.
  - cbn. rewrite app_nil_r. done.
  - replace (3 * length (r :: rest))%nat with (3 * length rest + 3)%nat by (cbn; lia).
    rewrite Nat.iter_add.
    destruct (handler_prints_one p r rest Hrun Hpc (eq_sym Hits)) as (H1 & H2 & H3 & H4).
    destruct (IH (Nat.iter 3 message_handler p) (eq_sym H3) H1 H2) as (I1 & I2 & I3 & I4).
    cbn zeta. rewrite I1, H4, <- app_assoc. done.
Qed.

Lemma printer_drains_queue_two :
  let p := snd (Demo.run (Demo.started (Demo.args [] 100 true))
                  [Deliver GOAL_SERVICE (Demo.service_event 0 1);
                   Deliver STATUS_TOPIC (Demo.status_message 2)]) in
  let p' := Nat.iter (3 * length (items_of p)) message_handler p in
  stdout p' = (stdout p ++ items_of p)%list /\
  items_of p' = [] /\
  output_msg_thread p' = AtWhile /\
  run_thread p' = true.
Proof.
  intros p. apply (printer_drains_queue p); reflexivity.
Defined.

(** ** Replacing the event type *)

Lemma dict_set_keys (k : string) (v : pyval) (d : odict) :
  Dict.has k d = true -> map fst (Dict.set k v d) = map fst d.
Proof.
  induction d as [|[k' v'] d IH]; cbn; [done |].
  destruct (String.eqb k' k) eqn:Hk; cbn; [done |]. intros H. by rewrite IH.
Qed.

Lemma dict_get_set (k : string) (v : pyval) (d : odict) :
  Dict.get k (Dict.set k v d) = inr v.
Proof.
  induction d as [|[k' v'] d IH]; cbn.
  - by rewrite String.eqb_refl.
  - destruct (String.eqb k' k) eqn:Hk; cbn; by rewrite Hk.
Qed.

Lemma dict_get_set_other (k k' : string) (v : pyval) (d : odict) :
  k' <> k -> Dict.get k' (Dict.set k v d) = Dict.get k' d.
Proof.
  intros Hne. induction d as [|[k0 v0] d IH]; cbn.
  - apply String.eqb_neq in Hne. rewrite String.eqb_sym in Hne. by rewrite Hne.
  - destruct (String.eqb k0 k) eqn:Hk; cbn; [| by rewrite IH].
    apply String.eqb_eq in Hk. subst k0.
    apply String.eqb_neq in Hne. rewrite String.eqb_sym in Hne. by rewrite Hne.
Qed.

(** X13: when the replacement of the event type succeeds, the dictionary
    keeps its fields and their order, every field other than ['info'] keeps
    its value, and when ['info'] is a mapping it keeps its own fields and
    their order, with every field other than ['event_type'] unchanged. *)
Theorem replace_event_type_keeps_fields (verb : EchoVerb) (d d' : odict) :
  replace_event_type verb d = inr d' ->
  map fst d' = map fst d /\
  (forall k, k <> "info" -> Dict.get k d' = Dict.get k d) /\
  (forall info, Dict.get "info" d = inr (PDict info) ->
     exists info',
       Dict.get "info" d' = inr (PDict info') /\
       map fst info' = map fst info /\
       forall k, k <> "event_type" -> Dict.get k info' = Dict.get k info).
Proof.
  unfold replace_event_type, bind. intros H.
  destruct (Dict.has "info" d) eqn:Hhas.
  2:{ inversion H; subst d'. repeat (split; [done |]).
      intros info Hget. apply dict_get_has in Hget. congruence. }
  destruct (Dict.get "info" d) as [e|info] eqn:Hget; [done |].
  destruct (contains_event_type info) as [e|[|]] eqn:Hc; [done | |].
  2:{ inversion H; subst d'. repeat (split; [done |]).
      intros info0 Hget0. inversion Hget0; subst. by exists info0. }
  destruct (getitem_event_type info) as [e|number] eqn:Hg; [done |].
  destruct (getitem_number (_event_number_to_name verb) number) as [e|name]; [done |].
  destruct info as [n|b|s|l|inner]; try done.
  unfold setitem_event_type in H. unfold contains_event_type in Hc.
  assert (Dict.has "event_type" inner = true) as Hin by congruence. clear Hc.
  assert (d' = Dict.set "info" (PDict (Dict.set "event_type" (PStr name) inner)) d)
    as -> by congruence.
  split; [by apply dict_set_keys |].
  split; [intros k Hk; by apply dict_get_set_other |].
  intros info0 Hget0. inversion Hget0; subst info0.
  exists (Dict.set "event_type" (PStr name) inner).
  split; [apply dict_get_set |].
  split; [by apply dict_set_keys |].
  intros k Hk. by apply dict_get_set_other.
Qed.

Lemma replace_event_type_keeps_fields_demo :
  let verb := self (Demo.started (Demo.args [] 100 false)) in
  let d' := [("info", PDict [("event_type", PStr "RESPONSE_SENT"); ("sequence_number", PInt 4)]);
             ("request", PList []); ("response", PList [])] in
  map fst d' = map fst (Demo.service_event 2 4) /\
  (forall k, k <> "info" -> Dict.get k d' = Dict.get k (Demo.service_event 2 4)).
Proof.
  intros verb d'.
  destruct (replace_event_type_keeps_fields verb (Demo.service_event 2 4) d')
    as (H1 & H2 & _).
  - reflexivity.
  - split; [exact H1 | exact H2].
Defined.

(** ** The stream a record names *)

(** X14: the first line of a record tells which stream it came from: the
    texts of two messages rendered for two different streams are never
    equal, whatever the messages and the output mode. *)
Theorem record_names_its_stream (Msg : Type)
    (message_to_csv : Msg -> option Z -> bool -> bool -> string)
    (message_to_ordereddict : Msg -> option Z -> bool -> bool -> odict)
    (yaml_dump : odict -> bool -> string)
    (verb : EchoVerb) (msg msg' : Msg) (i j : ActionInterfaces) (text : string) :
  to_print Msg message_to_csv message_to_ordereddict yaml_dump verb msg (value i) = inr text ->
  to_print Msg message_to_csv message_to_ordereddict yaml_dump verb msg' (value j) = inr text ->
  i = j.
Proof.
  intros Hi Hj.
  apply to_print_layout in Hi, Hj.
  assert (exists b b', ("interface: " +:+ value i +:+ Str.nl) +:+ b
                       = ("interface: " +:+ value j +:+ Str.nl) +:+ b') as (b & b' & Heq).
  { destruct (csv verb).
    - eexists _, _. by rewrite <- Hi, <- Hj.
    - destruct Hi as (d1 & _ & H1), Hj as (d2 & _ & H2).
      eexists _, _. by rewrite <- H1, <- H2. }
  destruct i, j; try reflexivity; exfalso; vm_compute in Heq; congruence.
Qed.

Lemma record_names_its_stream_demo :
  Demo.to_print (self (Demo.started (Demo.args [] 100 true)))
    (Demo.service_event 0 1) (value GOAL_SERVICE)
  = inr ("interface: GOAL_SERVICE" +:+ Str.nl +:+ "0,1") /\
  GOAL_SERVICE = GOAL_SERVICE.
Proof.
  split; [reflexivity |].
  apply (record_names_its_stream
           Demo.Msg Demo.message_to_csv Demo.message_to_ordereddict Demo.yaml_dump
           (self (Demo.started (Demo.args [] 100 true)))
           (Demo.service_event 0 1) (Demo.service_event 0 1)
           GOAL_SERVICE GOAL_SERVICE
           ("interface: GOAL_SERVICE" +:+ Str.nl +:+ "0,1")); reflexivity.
Defined.
